(** * ConfigLegacyFeatureDeprecator: a shallow embedding of [main.py]

    The tool loads a configuration document (YAML or JSON) and a JSON table of
    deprecated features, walks the configuration depth-first and reports every
    mapping key that the table contains, with the path at which it was found.

    The embedding follows the source: Python values as an inductive type,
    dictionaries as association lists in insertion order, exceptions as an
    error result, logging and process exit as an event trace with an outcome.
    The matcher is given three times: as the structural walk of a document,
    as that walk under the interpreter's recursion limit, and as a program on
    the object store, where its one mutable object is the result list. *)

From Stdlib Require Import List String Ascii Bool ZArith Lia DecimalString.
From Stdlib Require Import SpecFloat.
Import ListNotations.
Local Open Scope string_scope.
Local Open Scope list_scope.

Set Implicit Arguments.

(** ** Python values

    What [json.load] and [yaml.safe_load] build for a document whose mappings
    are keyed by strings: [None], [bool], [int], [float], [str], [list] and
    [dict].  A [dict] keeps its entries in insertion order, which is the order
    in which [dict.items()] yields them. *)

Unset Elimination Schemes.
Inductive value : Type :=
| VNone
| VBool (b : bool)
| VInt (z : Z)
| VFloat (f : spec_float)
| VStr (s : string)
| VList (l : list value)
| VDict (d : list (string * value)).
Set Elimination Schemes.

Section ValueInduction.
Variable P : value -> Prop.
Hypothesis HNone : P VNone.
Hypothesis HBool : forall b, P (VBool b).
Hypothesis HInt : forall z, P (VInt z).
Hypothesis HFloat : forall f, P (VFloat f).
Hypothesis HStr : forall s, P (VStr s).
Hypothesis HList : forall l, Forall P l -> P (VList l).
Hypothesis HDict : forall d, Forall (fun kv => P (snd kv)) d -> P (VDict d).

Fixpoint value_ind (v : value) : P v :=
  match v with
  | VNone => HNone
  | VBool b => HBool b
  | VInt z => HInt z
  | VFloat f => HFloat f
  | VStr s => HStr s
  | VList l =>
      HList ((fix go (l : list value) : Forall P l :=
                match l with
                | [] => Forall_nil P
                | x :: r => Forall_cons x (value_ind x) (go r)
                end) l)
  | VDict d =>
      HDict ((fix go (d : list (string * value))
                : Forall (fun kv => P (snd kv)) d :=
                match d with
                | [] => Forall_nil _
                | kv :: r =>
                    Forall_cons (P := fun kv => P (snd kv)) kv
                      (value_ind (snd kv)) (go r)
                end) d)
  end.
End ValueInduction.



(** Truth value of an object, as [not x] and [if x] test it. *)
Definition truthy (v : value) : bool :=
  match v with
  | VNone => false
  | VBool b => b
  | VInt z => negb (Z.eqb z 0)
  | VFloat (S754_zero _) => false
  | VFloat _ => true
  | VStr s => negb (String.eqb s "")
  | VList l => match l with [] => false | _ => true end
  | VDict d => match d with [] => false | _ => true end
  end.

(** ** Exceptions *)

Inductive exn : Type :=
| TypeError
| KeyError (key : string)
| RecursionError
| LoadError (msg : string).

Inductive result (A : Type) : Type :=
| Ok (a : A)
| Raise (e : exn).
Arguments Ok {A} a.
Arguments Raise {A} e.

(** Sequencing: an exception raised by [m] ends the computation. *)
Notation "'let*' x ':=' m 'in' k" :=
  (match m with Ok x => k | Raise e => Raise e end)
    (at level 10, x name, m at level 100, k at level 200).

(** ** Operators on the deprecation table *)

(** [s in t] for two strings: [s] occurs in [t] as a substring. *)
Fixpoint is_substring (s t : string) : bool :=
  String.prefix s t ||
  match t with
  | EmptyString => false
  | String _ t' => is_substring s t'
  end.

(** First entry of a dictionary under a key. *)
Fixpoint assoc (key : string) (d : list (string * value)) : option value :=
  match d with
  | [] => None
  | (k, v) :: r => if String.eqb key k then Some v else assoc key r
  end.

Definition has_key (key : string) (d : list (string * value)) : bool :=
  existsb (fun kv => String.eqb key (fst kv)) d.

(** [key == v] for a string [key]. *)
Definition str_eq_value (key : string) (v : value) : bool :=
  match v with
  | VStr s => String.eqb key s
  | _ => false
  end.

(** [key in table] for a string [key]: key membership in a [dict], element
    membership in a [list], substring test in a [str]; any other object is
    not a container and the test raises [TypeError]. *)
Definition py_in (key : string) (table : value) : result bool :=
  match table with
  | VDict d => Ok (has_key key d)
  | VList l => Ok (existsb (str_eq_value key) l)
  | VStr s => Ok (is_substring key s)
  | _ => Raise TypeError
  end.

(** [table[key]] for a string [key]: only a [dict] can be subscripted by a
    string. *)
Definition py_getitem (table : value) (key : string) : result value :=
  match table with
  | VDict d =>
      match assoc key d with
      | Some v => Ok v
      | None => Raise (KeyError key)
      end
  | _ => Raise TypeError
  end.

(** ** Findings and paths *)

Record finding : Type := Finding {
  feature : string;
  path : string;
  deprecation_info : value
}.

(** [f"{i}"] for a list index. *)
Definition str_of_index (i : nat) : string :=
  NilEmpty.string_of_uint (Nat.to_uint i).

(** [f"{path}.{key}" if path else key] *)
Definition key_path (path key : string) : string :=
  if String.eqb path "" then key else path ++ "." ++ key.

(** [f"{path}[{i}]"] *)
Definition index_path (path : string) (i : nat) : string :=
  path ++ "[" ++ str_of_index i ++ "]".

(** ** The matcher *)

Section Matcher.
(** [self.deprecated_features] *)
Variable deprecated_features : value.

(** The body of [if key in self.deprecated_features: ...]: what the test
    appends to [deprecated_found]. *)
Definition check_key (key new_path : string) : result (list finding) :=
  let* b := py_in key deprecated_features in
  if b then
    let* info := py_getitem deprecated_features key in
    Ok [Finding key new_path info]
  else Ok [].

Fixpoint find_deprecated_features (data : value) (path : string)
  {struct data} : result (list finding) :=
  match data with
  | VDict d =>
      (fix items (d : list (string * value)) (deprecated_found : list finding)
         {struct d} : result (list finding) :=
         match d with
         | [] => Ok deprecated_found
         | (key, v) :: rest =>
             let new_path := key_path path key in
             let* hit := check_key key new_path in
             let* sub := find_deprecated_features v new_path in
             items rest ((deprecated_found ++ hit) ++ sub)
         end) d []
  | VList l =>
      (fix elems (l : list value) (i : nat) (deprecated_found : list finding)
         {struct l} : result (list finding) :=
         match l with
         | [] => Ok deprecated_found
         | item :: rest =>
             let new_path := index_path path i in
             let* sub := find_deprecated_features item new_path in
             elems rest (S i) (deprecated_found ++ sub)
         end) l 0%nat []
  | _ => Ok []
  end.
End Matcher.

(** The two loops of the matcher, as functions of their own. *)
Section Loops.
Variable table : value.
Variable path : string.

Fixpoint find_items (d : list (string * value))
  (deprecated_found : list finding) : result (list finding) :=
  match d with
  | [] => Ok deprecated_found
  | (key, v) :: rest =>
      let new_path := key_path path key in
      let* hit := check_key table key new_path in
      let* sub := find_deprecated_features table v new_path in
      find_items rest ((deprecated_found ++ hit) ++ sub)
  end.

Fixpoint find_elems (l : list value) (i : nat)
  (deprecated_found : list finding) : result (list finding) :=
  match l with
  | [] => Ok deprecated_found
  | item :: rest =>
      let new_path := index_path path i in
      let* sub := find_deprecated_features table item new_path in
      find_elems rest (S i) (deprecated_found ++ sub)
  end.
End Loops.

(** ** Positions of mapping keys

    A position is the list of descents from the root; an occurrence of a
    mapping key is the position of the mapping that holds it, and the key. *)

Inductive step : Type :=
| Key (k : string)
| Idx (i : nat).

Definition occurrence : Type := (list step * string)%type.

Definition step_path (p : string) (s : step) : string :=
  match s with
  | Key k => key_path p k
  | Idx i => index_path p i
  end.

(** The path string of a position below a node whose own path is [p]. *)
Definition render_from (p : string) (pre : list step) : string :=
  fold_left step_path pre p.

Definition render (o : occurrence) : string :=
  key_path (render_from "" (fst o)) (snd o).



Definition under (s : step) (o : occurrence) : occurrence :=
  (s :: fst o, snd o).

(** All occurrences of mapping keys, parents before children, entries and
    elements in their order. *)
Fixpoint occurrences (data : value) : list occurrence :=
  match data with
  | VDict d =>
      flat_map (fun kv => ([], fst kv) :: map (under (Key (fst kv)))
                                            (occurrences (snd kv))) d
  | VList l =>
      (fix elems (l : list value) (i : nat) : list occurrence :=
         match l with
         | [] => []
         | item :: rest =>
             map (under (Idx i)) (occurrences item) ++ elems rest (S i)
         end) l 0%nat
  | _ => []
  end.

Fixpoint occurrences_elems (l : list value) (i : nat) : list occurrence :=
  match l with
  | [] => []
  | item :: rest =>
      map (under (Idx i)) (occurrences item) ++ occurrences_elems rest (S i)
  end.

(** The finding that an occurrence yields under a table of entries [tbl],
    seen from a node whose path is [p]: one if the key is in the table, none
    otherwise. *)
Definition hit (tbl : list (string * value)) (p : string) (o : occurrence)
  : list finding :=
  match assoc (snd o) tbl with
  | Some info => [Finding (snd o) (key_path (render_from p (fst o)) (snd o)) info]
  | None => []
  end.

Definition is_mapping (v : value) : bool :=
  match v with
  | VDict _ => true
  | _ => false
  end.

(** The membership test on [key] completes and answers no. *)
Definition misses (table : value) (key : string) : bool :=
  match py_in key table with
  | Ok false => true
  | _ => false
  end.

Definition all_miss (table : value) (os : list occurrence) : bool :=
  forallb (fun o => misses table (snd o)) os.

(** A node the walk descends into; every other value is a scalar. *)
Definition is_container (v : value) : bool :=
  match v with
  | VList _ | VDict _ => true
  | _ => false
  end.


(** ** Files, logging and process exit *)

(** A path names nothing, or a file that cannot be opened, or one that opens
    but cannot be read as text, or a text file. *)
Inductive file : Type :=
| NoAccess (e : exn)
| Garbled (e : exn)
| Text (content : string).

Definition filesystem : Type := string -> option file.

(** [os.path.exists] *)
Definition path_exists (fs : filesystem) (p : string) : bool :=
  match fs p with
  | Some _ => true
  | None => false
  end.

(** [open(p, 'r')] on an existing path, and [f.read()]. *)
Definition open (f : file) : result file :=
  match f with
  | NoAccess e => Raise e
  | _ => Ok f
  end.

Definition read (f : file) : result string :=
  match f with
  | Text s => Ok s
  | Garbled e | NoAccess e => Raise e
  end.

Inductive level : Type := INFO | WARNING | ERROR.

(** One constructor per logging call of the source, with the values its
    format string interpolates. *)
Inductive message : Type :=
| ConfigNotFound (config_file : string)
| UnsupportedType (config_type : string)
| ErrorLoadingConfig (e : exn)
| DeprecatedNotFound (deprecated_features_file : string)
| ErrorLoadingDeprecated (e : exn)
| FailedToLoad
| FoundHeader
| FeatureLine (feature : string)
| PathLine (path : string)
| DetailsLine (info : value)
| Separator
| NoneFound.

(** What a run does that can be observed: the files it opens, the log
    records it emits and, as a marker, the call of the matcher on the loaded
    configuration. *)
Inductive event : Type :=
| Open (p : string)
| Log (lvl : level) (msg : message)
| Invoke (data : value).

(** How a computation ends: it returns, an exception leaves it, or
    [sys.exit] ends the process. *)
Inductive outcome (A : Type) : Type :=
| Return (a : A)
| Raised (e : exn)
| Exited (code : Z).
Arguments Return {A} a.
Arguments Raised {A} e.
Arguments Exited {A} code.

Definition io (A : Type) : Type := (list event * outcome A)%type.

Definition ret {A} (a : A) : io A := ([], Return a).

Definition bind {A B} (m : io A) (k : A -> io B) : io B :=
  match m with
  | (t, Return a) => let (t', o) := k a in (t ++ t', o)
  | (t, Raised e) => (t, Raised e)
  | (t, Exited c) => (t, Exited c)
  end.

Notation "x <- m ;; k" := (bind m (fun x => k))
  (at level 61, m at next level, right associativity).
Notation "m ;; k" := (bind m (fun _ => k))
  (at level 61, right associativity).

Definition log (lvl : level) (msg : message) : io unit :=
  ([Log lvl msg], Return tt).

Definition sys_exit {A} (code : Z) : io A := ([], Exited code).

Definition lift {A} (r : result A) : io A :=
  match r with
  | Ok a => ret a
  | Raise e => ([], Raised e)
  end.

(** [open(p, 'r')] on the file that [p] names. *)
Definition open_file (p : string) (on_disk : file) : io file :=
  match open on_disk with
  | Ok f => ([Open p], Return f)
  | Raise e => ([Open p], Raised e)
  end.

(** [try: m  except Exception as e: h e] *)
Definition try_except {A} (m : io A) (h : exn -> io A) : io A :=
  match m with
  | (t, Raised e) => let (t', o) := h e in (t ++ t', o)
  | _ => m
  end.

Definition trace {A} (m : io A) : list event := fst m.
Definition result_of {A} (m : io A) : outcome A := snd m.

(** The status the process ends with: the argument of [sys.exit], or 1 when
    an exception reaches the top level. *)
Definition exit_status {A} (m : io A) : Z :=
  match result_of m with
  | Exited c => c
  | Raised _ => 1
  | Return _ => 0
  end.

Definition is_error (ev : event) : bool :=
  match ev with
  | Log ERROR _ => true
  | _ => false
  end.

Definition is_invoke (ev : event) : bool :=
  match ev with
  | Invoke _ => true
  | _ => false
  end.

(** The matcher was called during the run. *)
Definition matcher_invoked {A} (m : io A) : bool :=
  existsb is_invoke (trace m).

(** [str.lower], on the ASCII letters. *)
Definition lower_ascii (c : ascii) : ascii :=
  let n := nat_of_ascii c in
  if (65 <=? n)%nat && (n <=? 90)%nat then ascii_of_nat (n + 32) else c.

Fixpoint lower (s : string) : string :=
  match s with
  | EmptyString => EmptyString
  | String c r => String (lower_ascii c) (lower r)
  end.

(** ** The loaders, [run] and [main] *)

Record deprecator : Type := Deprecator {
  config_file : string;
  config_type : string;
  deprecated_features_file : string;
  deprecated_features : value;
  config_data : value
}.

Record arguments : Type := Arguments_ {
  arg_config_file : string;
  arg_config_type : string;
  arg_deprecated_features_file : string
}.

Section Program.
(** The parsers are libraries outside the repository: [json.loads] and the
    string form of [yaml.safe_load], which return the parsed document or
    raise. *)
Variable json_loads : string -> result value.
Variable yaml_safe_loads : string -> result value.
Variable fs : filesystem.

(** [json.load(f)] and [yaml.safe_load(f)]: read the file, then parse. *)
Definition json_load (f : file) : result value :=
  let* s := read f in json_loads s.

Definition yaml_safe_load (f : file) : result value :=
  let* s := read f in yaml_safe_loads s.

Definition load_config_data (config_file config_type : string) : io value :=
  match fs config_file with
  | None =>
      log ERROR (ConfigNotFound config_file) ;;
      ret VNone
  | Some on_disk =>
      try_except
        (f <- open_file config_file on_disk ;;
         if String.eqb config_type "yaml" then lift (yaml_safe_load f)
         else if String.eqb config_type "json" then lift (json_load f)
         else (log ERROR (UnsupportedType config_type) ;; ret VNone))
        (fun e => log ERROR (ErrorLoadingConfig e) ;; ret VNone)
  end.

Definition load_deprecated_features (deprecated_features_file : string)
  : io value :=
  match fs deprecated_features_file with
  | None =>
      log ERROR (DeprecatedNotFound deprecated_features_file) ;;
      ret VNone
  | Some on_disk =>
      try_except
        (f <- open_file deprecated_features_file on_disk ;; lift (json_load f))
        (fun e => log ERROR (ErrorLoadingDeprecated e) ;; ret VNone)
  end.

(** [__init__] *)
Definition init (config_file config_type deprecated_features_file : string)
  : io deprecator :=
  let config_type := lower config_type in
  table <- load_deprecated_features deprecated_features_file ;;
  data <- load_config_data config_file config_type ;;
  ret (Deprecator config_file config_type deprecated_features_file table data).

(** The call [self.find_deprecated_features(self.config_data)]. *)
Definition call_matcher (self : deprecator) (data : value)
  : io (list finding) :=
  ([Invoke data], Return tt) ;;
  lift (find_deprecated_features (deprecated_features self) data "").

Definition nonempty {A} (l : list A) : bool :=
  match l with
  | [] => false
  | _ => true
  end.

(** The four warnings logged for each finding. *)
Fixpoint report (found : list finding) : io unit :=
  match found with
  | [] => ret tt
  | f :: rest =>
      log WARNING (FeatureLine (feature f)) ;;
      log WARNING (PathLine (path f)) ;;
      log WARNING (DetailsLine (deprecation_info f)) ;;
      log WARNING Separator ;;
      report rest
  end.

Definition run (self : deprecator) : io (list finding) :=
  if negb (truthy (config_data self)) || negb (truthy (deprecated_features self))
  then
    log ERROR FailedToLoad ;;
    ret []
  else
    found <- call_matcher self (config_data self) ;;
    (if nonempty found then
       log WARNING FoundHeader ;;
       report found
     else log INFO NoneFound) ;;
    ret found.

(** [main], from the parsed command line on. *)
Definition main (args : arguments) : io unit :=
  if negb (path_exists fs (arg_config_file args)) then
    log ERROR (ConfigNotFound (arg_config_file args)) ;;
    sys_exit 1
  else if negb (path_exists fs (arg_deprecated_features_file args)) then
    log ERROR (DeprecatedNotFound (arg_deprecated_features_file args)) ;;
    sys_exit 1
  else
    self <- init (arg_config_file args) (arg_config_type args)
                 (arg_deprecated_features_file args) ;;
    found <- run self ;;
    if nonempty found then sys_exit 2 else sys_exit 0.

End Program.

(** ** The loader's contract *)

(** The parser that a declared format selects, if the format is supported. *)
Definition parser_for (json_loads yaml_safe_loads : string -> result value)
  (config_type : string) : option (string -> result value) :=
  if String.eqb config_type "yaml" then Some yaml_safe_loads
  else if String.eqb config_type "json" then Some json_loads
  else None.

(** The computation returns a value without raising, and does not call the
    matcher. *)
Definition quiet_return (m : io value) : Prop :=
  exists t v, m = (t, Return v) /\ existsb is_invoke t = false.

(** How [main] ends after [run]. *)
Definition finish (o : outcome (list finding)) : outcome unit :=
  match o with
  | Return found => Exited (if nonempty found then 2 else 0)
  | Raised e => Raised e
  | Exited c => Exited c
  end.

(** ** The matcher under the interpreter's recursion limit

    Every call of [find_deprecated_features] takes a frame, also the call on
    a scalar; the interpreter raises [RecursionError] at the call for which
    no frame is left.  [limit] is the number of frames left for the matcher
    when [run] calls it. *)

(** The loops of the matcher over the function [rec] they call on the
    children. *)
Section LoopsOver.
Variable table : value.
Variable rec : value -> string -> result (list finding).
Variable path : string.

Fixpoint items_over (d : list (string * value))
  (deprecated_found : list finding) : result (list finding) :=
  match d with
  | [] => Ok deprecated_found
  | (key, v) :: rest =>
      let new_path := key_path path key in
      let* hit := check_key table key new_path in
      let* sub := rec v new_path in
      items_over rest ((deprecated_found ++ hit) ++ sub)
  end.

Fixpoint elems_over (l : list value) (i : nat)
  (deprecated_found : list finding) : result (list finding) :=
  match l with
  | [] => Ok deprecated_found
  | item :: rest =>
      let new_path := index_path path i in
      let* sub := rec item new_path in
      elems_over rest (S i) (deprecated_found ++ sub)
  end.
End LoopsOver.

Fixpoint find_deprecated_features_within (limit : nat) (table data : value)
  (path : string) {struct limit} : result (list finding) :=
  match limit with
  | O => Raise RecursionError
  | S limit' =>
      match data with
      | VDict d =>
          items_over table (find_deprecated_features_within limit' table)
            path d []
      | VList l =>
          elems_over (find_deprecated_features_within limit' table)
            path l 0%nat []
      | _ => Ok []
      end
  end.

(** The number of nested calls the walk of a document needs. *)
Fixpoint depth (data : value) : nat :=
  match data with
  | VDict d => S (list_max (map (fun kv => depth (snd kv)) d))
  | VList l => S (list_max (map depth l))
  | _ => 1%nat
  end.

(** A document nested [n] sequences deep around a number. *)
Fixpoint nest (n : nat) : value :=
  match n with
  | O => VInt 1
  | S n' => VList [nest n']
  end.

(** ** The matcher on the object store

    Lists and dictionaries are objects in a store; a slot of a container
    holds an immutable scalar or the address of an object.  The matcher reads
    the table and the document through their addresses, builds its result
    list and its findings as new objects, and mutates only the result list
    it has created, with [append] and [extend]. *)

Definition addr : Type := nat.

Inductive slot : Type :=
| SNone
| SBool (b : bool)
| SInt (z : Z)
| SFloat (f : spec_float)
| SStr (s : string)
| SRef (a : addr).

Inductive pyobj : Type :=
| OList (items : list slot)
| ODict (entries : list (string * slot)).

(** The store: the object at address [a] is the [a]-th one; a new object
    takes the next address. *)
Definition heap : Type := list pyobj.

Fixpoint store (h : heap) (a : addr) (o : pyobj) : heap :=
  match h, a with
  | [], _ => []
  | _ :: r, O => o :: r
  | x :: r, S a' => x :: store r a' o
  end.

(** [lst.append(s)] and [lst.extend(other)] on list objects. *)
Definition list_append (h : heap) (lst : addr) (s : slot) : heap :=
  match nth_error h lst with
  | Some (OList items) => store h lst (OList (items ++ [s]))
  | _ => h
  end.

Definition list_extend (h : heap) (lst other : addr) : heap :=
  match nth_error h lst, nth_error h other with
  | Some (OList items), Some (OList more) => store h lst (OList (items ++ more))
  | _, _ => h
  end.

Definition slot_eq_str (key : string) (s : slot) : bool :=
  match s with
  | SStr x => String.eqb key x
  | _ => false
  end.

Fixpoint assoc_slot (key : string) (entries : list (string * slot))
  : option slot :=
  match entries with
  | [] => None
  | (k, s) :: r => if String.eqb key k then Some s else assoc_slot key r
  end.

(** [key in table] and [table[key]] on the store. *)
Definition in_heap (h : heap) (key : string) (table : slot) : result bool :=
  match table with
  | SRef a =>
      match nth_error h a with
      | Some (ODict entries) =>
          Ok (existsb (fun e => String.eqb key (fst e)) entries)
      | Some (OList items) => Ok (existsb (slot_eq_str key) items)
      | None => Raise TypeError
      end
  | SStr s => Ok (is_substring key s)
  | _ => Raise TypeError
  end.

Definition getitem_heap (h : heap) (table : slot) (key : string)
  : result slot :=
  match table with
  | SRef a =>
      match nth_error h a with
      | Some (ODict entries) =>
          match assoc_slot key entries with
          | Some s => Ok s
          | None => Raise (KeyError key)
          end
      | _ => Raise TypeError
      end
  | _ => Raise TypeError
  end.

(** The dictionary that the matcher appends for a match. *)
Definition finding_obj (key new_path : string) (info : slot) : pyobj :=
  ODict [("feature", SStr key); ("path", SStr new_path);
         ("deprecation_info", info)].

(** [if key in self.deprecated_features: deprecated_found.append({...})] *)
Definition check_key_heap (h : heap) (table : slot) (deprecated_found : addr)
  (key new_path : string) : result heap :=
  let* b := in_heap h key table in
  if b then
    let* info := getitem_heap h table key in
    let finding := List.length h in
    Ok (list_append (h ++ [finding_obj key new_path info]) deprecated_found
          (SRef finding))
  else Ok h.

Section HeapLoops.
Variable table : slot.
Variable rec : slot -> string -> heap -> result (addr * heap).
Variable path : string.
Variable deprecated_found : addr.

Fixpoint items_heap (entries : list (string * slot)) (h : heap)
  : result (addr * heap) :=
  match entries with
  | [] => Ok (deprecated_found, h)
  | (key, v) :: rest =>
      let new_path := key_path path key in
      let* h1 := check_key_heap h table deprecated_found key new_path in
      let* r := rec v new_path h1 in
      items_heap rest (list_extend (snd r) deprecated_found (fst r))
  end.

Fixpoint elems_heap (items : list slot) (i : nat) (h : heap)
  : result (addr * heap) :=
  match items with
  | [] => Ok (deprecated_found, h)
  | item :: rest =>
      let new_path := index_path path i in
      let* r := rec item new_path h in
      elems_heap rest (S i) (list_extend (snd r) deprecated_found (fst r))
  end.
End HeapLoops.

(** The matcher on the store: it returns the address of its result list and
    the store it leaves. *)
Fixpoint find_heap (limit : nat) (table data : slot) (path : string)
  (h : heap) {struct limit} : result (addr * heap) :=
  match limit with
  | O => Raise RecursionError
  | S limit' =>
      let deprecated_found := List.length h in
      let h := h ++ [OList []] in
      match data with
      | SRef d =>
          match nth_error h d with
          | Some (ODict entries) =>
              items_heap table (find_heap limit' table) path deprecated_found
                entries h
          | Some (OList items) =>
              elems_heap (find_heap limit' table) path deprecated_found
                items 0%nat h
          | None => Ok (deprecated_found, h)
          end
      | _ => Ok (deprecated_found, h)
      end
  end.

(** The value that a slot stands for in a store. *)
Fixpoint denotes (h : heap) (v : value) (s : slot) {struct v} : Prop :=
  match v with
  | VNone => s = SNone
  | VBool b => s = SBool b
  | VInt z => s = SInt z
  | VFloat f => s = SFloat f
  | VStr x => s = SStr x
  | VList l =>
      exists a items,
        s = SRef a /\ nth_error h a = Some (OList items) /\
        (fix all (l : list value) (items : list slot) : Prop :=
           match l, items with
           | [], [] => True
           | x :: l', i :: items' => denotes h x i /\ all l' items'
           | _, _ => False
           end) l items
  | VDict d =>
      exists a entries,
        s = SRef a /\ nth_error h a = Some (ODict entries) /\
        (fix all (d : list (string * value)) (entries : list (string * slot))
           : Prop :=
           match d, entries with
           | [], [] => True
           | kv :: d', e :: entries' =>
               fst kv = fst e /\ denotes h (snd kv) (snd e) /\ all d' entries'
           | _, _ => False
           end) d entries
  end.

Section DenotesAll.
Variable h : heap.

Fixpoint denotes_items (l : list value) (items : list slot) : Prop :=
  match l, items with
  | [], [] => True
  | x :: l', i :: items' => denotes h x i /\ denotes_items l' items'
  | _, _ => False
  end.

Fixpoint denotes_entries (d : list (string * value))
  (entries : list (string * slot)) : Prop :=
  match d, entries with
  | [], [] => True
  | kv :: d', e :: entries' =>
      fst kv = fst e /\ denotes h (snd kv) (snd e) /\
      denotes_entries d' entries'
  | _, _ => False
  end.
End DenotesAll.

(** The slot [s] of a result list holds the finding [f]: a dictionary with
    the three entries, whose info slot stands for the finding's info in the
    store [h0] that the table lives in. *)
Definition finding_at (h0 h : heap) (s : slot) (f : finding) : Prop :=
  exists a info,
    s = SRef a /\
    nth_error h a = Some (finding_obj (feature f) (path f) info) /\
    denotes h0 (deprecation_info f) info.

(** The list object at [a] holds the findings [fs], in their order. *)
Definition findings_at (h0 h : heap) (a : addr) (fs : list finding) : Prop :=
  exists items,
    nth_error h a = Some (OList items) /\ Forall2 (finding_at h0 h) items fs.

(** Every object of [h] is still there in [h'], unchanged. *)
Definition preserved (h h' : heap) : Prop :=
  forall a o, nth_error h a = Some o -> nth_error h' a = Some o.

(** Every object of [h] other than the one at [lst] is still there in [h'],
    unchanged. *)
Definition frame (lst : addr) (h h' : heap) : Prop :=
  forall a o, a <> lst -> nth_error h a = Some o -> nth_error h' a = Some o.

(** A call of the matcher on the store does what the call on values does:
    with [n] frames left, on a table and a document that live in the store
    [h0], started on a store [h] that still holds the objects of [h0], it
    returns the address of a new list that holds the same findings and
    leaves every object of [h] in place, or it raises the same exception. *)
Definition call_sim (h0 : heap) (tv : value) (table : slot) (n : nat) : Prop :=
  forall dv data p h,
    denotes h0 dv data -> preserved h0 h ->
    match find_deprecated_features_within n tv dv p with
    | Ok fs =>
        exists h',
          find_heap n table data p h = Ok (List.length h, h') /\
          preserved h h' /\ findings_at h0 h' (List.length h) fs
    | Raise e => find_heap n table data p h = Raise e
    end.

(** ** [run] and [main] over the scan they call

    [run] and [main] with the call of the matcher as a parameter, to run them
    with the matcher under a recursion limit, and [main] from the command
    line on. *)

Section ProgramOver.
Variable json_loads : string -> result value.
Variable yaml_safe_loads : string -> result value.
Variable fs : filesystem.
(** [self.find_deprecated_features(data)] for a table and a document. *)
Variable scan : value -> value -> result (list finding).

Definition call_matcher_over (self : deprecator) (data : value)
  : io (list finding) :=
  ([Invoke data], Return tt) ;;
  lift (scan (deprecated_features self) data).

Definition run_over (self : deprecator) : io (list finding) :=
  if negb (truthy (config_data self)) || negb (truthy (deprecated_features self))
  then
    log ERROR FailedToLoad ;;
    ret []
  else
    found <- call_matcher_over self (config_data self) ;;
    (if nonempty found then
       log WARNING FoundHeader ;;
       report found
     else log INFO NoneFound) ;;
    ret found.

Definition main_over (args : arguments) : io unit :=
  if negb (path_exists fs (arg_config_file args)) then
    log ERROR (ConfigNotFound (arg_config_file args)) ;;
    sys_exit 1
  else if negb (path_exists fs (arg_deprecated_features_file args)) then
    log ERROR (DeprecatedNotFound (arg_deprecated_features_file args)) ;;
    sys_exit 1
  else
    self <- init json_loads yaml_safe_loads fs
              (arg_config_file args) (arg_config_type args)
              (arg_deprecated_features_file args) ;;
    found <- run_over self ;;
    if nonempty found then sys_exit 2 else sys_exit 0.

(** [parser.parse_args()] is the argument parser of the standard library:
    it returns the parsed arguments, or ends the process with a status of
    its own (2 after a usage error) without returning. *)
Variable parse_args : list string -> arguments + Z.

(** [main], from the command line on. *)
Definition main_cli (argv : list string) : io unit :=
  match parse_args argv with
  | inl args => main_over args
  | inr code => sys_exit code
  end.
End ProgramOver.

(** The scan under a recursion limit. *)
Definition scan_within (limit : nat) (table data : value)
  : result (list finding) :=
  find_deprecated_features_within limit table data "".

(** ** Sample documents

    The parsers on a few documents, with what [json.loads] and
    [yaml.safe_load] make of each, and file systems given by their listing;
    the program is run on them below. *)

Definition dq : string := String "034"%char EmptyString.

Definition parse_listed (docs : list (string * result value)) (s : string)
  : result value :=
  match find (fun d => String.eqb s (fst d)) docs with
  | Some d => snd d
  | None => Raise (LoadError "document not listed")
  end.

Definition listing (files : list (string * file)) : filesystem :=
  fun p =>
    match find (fun e => String.eqb p (fst e)) files with
    | Some e => Some (snd e)
    | None => None
    end.

(** [{"a": 1}], [{"c": "gone"}], [["a"]] and [{"x": 1}] as JSON text. *)
Definition doc_a1 : string := "{" ++ dq ++ "a" ++ dq ++ ": 1}".
Definition doc_c_gone : string :=
  "{" ++ dq ++ "c" ++ dq ++ ": " ++ dq ++ "gone" ++ dq ++ "}".
Definition doc_list_a : string := "[" ++ dq ++ "a" ++ dq ++ "]".
Definition doc_x1 : string := "{" ++ dq ++ "x" ++ dq ++ ": 1}".
(** [{"a": {"b": [1, {"c": 2}]}}] *)
Definition doc_nested : string :=
  "{" ++ dq ++ "a" ++ dq ++ ": {" ++ dq ++ "b" ++ dq ++ ": [1, {"
      ++ dq ++ "c" ++ dq ++ ": 2}]}}".

Definition ex_tree : value :=
  VDict [("a", VDict [("b", VList [VInt 1; VDict [("c", VInt 2)]])])].

Definition sample_json : string -> result value :=
  parse_listed
    [("null", Ok VNone);
     ("false", Ok (VBool false));
     ("0", Ok (VInt 0));
     ("{}", Ok (VDict []));
     ("[]", Ok (VList []));
     ("5", Ok (VInt 5));
     (doc_a1, Ok (VDict [("a", VInt 1)]));
     (doc_x1, Ok (VDict [("x", VInt 1)]));
     (doc_c_gone, Ok (VDict [("c", VStr "gone")]));
     (doc_list_a, Ok (VList [VStr "a"]));
     (doc_nested, Ok ex_tree);
     ("{", Raise (LoadError "Expecting property name enclosed in double quotes"))].

Definition sample_yaml : string -> result value :=
  parse_listed
    [("", Ok VNone);
     ("a: 1", Ok (VDict [("a", VInt 1)]));
     ("a: [", Raise (LoadError "while parsing a flow node"))].

(** A command line and the disk it runs on. *)
Definition args_json : arguments :=
  Arguments_ "config.json" "json" "deprecated.json".

Definition disk (config table : string) : filesystem :=
  listing [("config.json", Text config); ("deprecated.json", Text table)].

(** The key [c] at two paths, and [c] as a value and as a sequence element. *)
Definition dup_tree : value :=
  VDict [("c", VDict [("c", VStr "c")]); ("l", VList [VStr "c"])].

Definition tbl_c : list (string * value) := [("c", VStr "gone")].

(** The four records that [run] logs for one finding. *)
Definition report_lines (f : finding) : list event :=
  [Log WARNING (FeatureLine (feature f));
   Log WARNING (PathLine (path f));
   Log WARNING (DetailsLine (deprecation_info f));
   Log WARNING Separator].

(** What [run] logs after the scan returned [found]. *)
Definition report_trace (found : list finding) : list event :=
  if nonempty found
  then Log WARNING FoundHeader :: flat_map report_lines found
  else [Log INFO NoneFound].

(** The argument parser on the command lines that give the three options
    in the order of their declaration, each with its value: it accepts them
    when the type is one of the two choices and ends with status 2
    otherwise. *)
Definition sample_parse_args (argv : list string) : arguments + Z :=
  match argv with
  | [o1; f; o2; t; o3; d] =>
      if String.eqb o1 "--config-file" && String.eqb o2 "--config-type"
         && String.eqb o3 "--deprecated-features-file"
         && (String.eqb t "yaml" || String.eqb t "json")
      then inl (Arguments_ f t d)
      else inr 2%Z
  | _ => inr 2%Z
  end.

Definition argv_json : list string :=
  ["--config-file"; "config.json"; "--config-type"; "json";
   "--deprecated-features-file"; "deprecated.json"].

(** A store that holds the table [{"c": "gone"}] at address 0 and the
    document [{"a": {"b": [1, {"c": 2}]}}] at address 4. *)
Definition ex_heap : heap :=
  [ODict [("c", SStr "gone")];
   ODict [("c", SInt 2)];
   OList [SInt 1; SRef 1%nat];
   ODict [("b", SRef 2%nat)];
   ODict [("a", SRef 3%nat)]].

(** ** Properties of the matcher *)

Lemma find_dict_eq table d p :
  find_deprecated_features table (VDict d) p = find_items table p d [].
Proof. reflexivity. Qed.

Lemma find_list_eq table l p :
  find_deprecated_features table (VList l) p = find_elems table p l 0 [].
Proof. reflexivity. Qed.

Lemma occurrences_list_eq l :
  occurrences (VList l) = occurrences_elems l 0.
Proof. reflexivity. Qed.

Lemma find_scalar table data p :
  is_container data = false -> find_deprecated_features table data p = Ok [].
Proof. destruct data; simpl; intros E; try reflexivity; discriminate E. Qed.

Lemma has_key_assoc key d :
  has_key key d = true <-> exists v, assoc key d = Some v.
Proof.
  induction d as [|[k v] r IH]; simpl.
  - split; [discriminate | intros [v E]; discriminate E].
  - destruct (String.eqb key k); simpl.
    + split; [eexists; reflexivity | reflexivity].
    + exact IH.
Qed.

Lemma has_key_false key d : has_key key d = false <-> assoc key d = None.
Proof.
  induction d as [|[k v] r IH]; simpl.
  - split; reflexivity.
  - destruct (String.eqb key k); simpl.
    + split; discriminate.
    + exact IH.
Qed.

Lemma check_key_dict tbl key new_path :
  check_key (VDict tbl) key new_path =
  Ok (match assoc key tbl with
      | Some info => [Finding key new_path info]
      | None => []
      end).
Proof.
  unfold check_key; simpl.
  destruct (has_key key tbl) eqn:E.
  - apply has_key_assoc in E. destruct E as [v E]. rewrite E. reflexivity.
  - apply has_key_false in E. rewrite E. reflexivity.
Qed.

Lemma check_key_hit tbl p key :
  check_key (VDict tbl) key (key_path p key) = Ok (hit tbl p ([], key)).
Proof. apply check_key_dict. Qed.

Lemma hit_under tbl p s o :
  hit tbl p (under s o) = hit tbl (step_path p s) o.
Proof. reflexivity. Qed.

Lemma flat_map_hit_under tbl p s os :
  flat_map (hit tbl p) (map (under s) os) = flat_map (hit tbl (step_path p s)) os.
Proof.
  induction os as [|o r IH]; simpl; [reflexivity|].
  rewrite IH, hit_under. reflexivity.
Qed.

(** With a mapping as table the matcher returns, for every document, the
    findings of the document's key occurrences, in their order. *)
Lemma find_spec tbl data :
  forall p,
    find_deprecated_features (VDict tbl) data p =
    Ok (flat_map (hit tbl p) (occurrences data)).
Proof.
  induction data as [| | | | |l IH|d IH] using value_ind; intros p;
    try reflexivity.
  - rewrite find_list_eq, occurrences_list_eq.
    assert (G : forall acc i,
               find_elems (VDict tbl) p l i acc =
               Ok (acc ++ flat_map (hit tbl p) (occurrences_elems l i))).
    { induction IH as [|x r Hx _ IHr]; intros acc i; simpl.
      - rewrite app_nil_r. reflexivity.
      - rewrite Hx, IHr, flat_map_app, flat_map_hit_under, app_assoc.
        reflexivity. }
    rewrite G. reflexivity.
  - rewrite find_dict_eq.
    assert (G : forall acc,
               find_items (VDict tbl) p d acc =
               Ok (acc ++ flat_map (hit tbl p) (occurrences (VDict d)))).
    { induction IH as [|[k v] r Hv _ IHr]; intros acc; simpl.
      - rewrite app_nil_r. reflexivity.
      - rewrite check_key_hit. simpl in Hv. rewrite Hv, IHr. simpl.
        rewrite flat_map_app, flat_map_hit_under, <- !app_assoc.
        reflexivity. }
    rewrite G. reflexivity.
Qed.

(** *** Occurrences are the key positions of the document *)




Lemma has_key_In key d : has_key key d = true <-> In key (map fst d).
Proof.
  unfold has_key. rewrite existsb_exists, in_map_iff. split.
  - intros [kv [Hin E]]. apply String.eqb_eq in E. exists kv. auto.
  - intros [kv [E Hin]]. exists kv. split; [exact Hin|].
    apply String.eqb_eq. auto.
Qed.













Lemma flat_map_hit_empty p os : flat_map (hit [] p) os = [].
Proof. induction os as [|o r IH]; simpl; [reflexivity | exact IH]. Qed.

Lemma flat_map_hit_none tbl p os :
  (forall o, In o os -> assoc (snd o) tbl = None) ->
  flat_map (hit tbl p) os = [].
Proof.
  induction os as [|o r IH]; simpl; intros H; [reflexivity|].
  unfold hit at 1. rewrite (H o (or_introl eq_refl)). simpl.
  apply IH. intros o' Hin. apply H. right. exact Hin.
Qed.

Lemma In_flat_map_hit tbl p os f :
  In f (flat_map (hit tbl p) os) ->
  exists o, In o os /\ assoc (snd o) tbl = Some (deprecation_info f) /\
            feature f = snd o /\
            path f = key_path (render_from p (fst o)) (snd o).
Proof.
  rewrite in_flat_map. intros [o [Hin Hf]]. exists o. split; [exact Hin|].
  unfold hit in Hf. destruct (assoc (snd o) tbl) as [info|]; [|contradiction].
  destruct Hf as [E|[]]. subst f. simpl. auto.
Qed.

Lemma render_from_snoc p pre s :
  render_from p (pre ++ [s]) = step_path (render_from p pre) s.
Proof. unfold render_from. rewrite fold_left_app. reflexivity. Qed.

(** *** A table that is not a mapping *)

Lemma check_key_non_mapping table key new_path :
  is_mapping table = false ->
  check_key table key new_path =
  if misses table key then Ok [] else Raise TypeError.
Proof.
  intros NM. unfold check_key, misses.
  destruct table; try discriminate NM; simpl; try reflexivity.
  - destruct (is_substring key s); reflexivity.
  - destruct (existsb (str_eq_value key) l); reflexivity.
Qed.

Lemma all_miss_under table s os :
  all_miss table (map (under s) os) = all_miss table os.
Proof.
  unfold all_miss. induction os as [|o r IH]; simpl; [reflexivity|].
  rewrite IH. reflexivity.
Qed.

Lemma all_miss_app table os os' :
  all_miss table (os ++ os') = all_miss table os && all_miss table os'.
Proof. apply forallb_app. Qed.

Lemma find_non_mapping table data :
  is_mapping table = false ->
  forall p,
    find_deprecated_features table data p =
    if all_miss table (occurrences data) then Ok [] else Raise TypeError.
Proof.
  intros NM.
  induction data as [| | | | |l IH|d IH] using value_ind; intros p;
    try reflexivity.
  - rewrite find_list_eq, occurrences_list_eq.
    assert (G : forall acc i,
               find_elems table p l i acc =
               if all_miss table (occurrences_elems l i)
               then Ok acc else Raise TypeError).
    { induction IH as [|x r Hx _ IHr]; intros acc i; simpl; [reflexivity|].
      rewrite Hx, all_miss_app, all_miss_under.
      destruct (all_miss table (occurrences x)); simpl; [|reflexivity].
      rewrite IHr, app_nil_r. reflexivity. }
    apply G.
  - rewrite find_dict_eq.
    assert (G : forall acc,
               find_items table p d acc =
               if all_miss table (occurrences (VDict d))
               then Ok acc else Raise TypeError).
    { induction IH as [|[k v] r Hv _ IHr]; intros acc; [reflexivity|].
      change (occurrences (VDict ((k, v) :: r)))
        with (([], k) :: map (under (Key k)) (occurrences v)
                ++ occurrences (VDict r)).
      change (all_miss table (([], k) :: map (under (Key k)) (occurrences v)
                                ++ occurrences (VDict r)))
        with (misses table k &&
              all_miss table (map (under (Key k)) (occurrences v)
                                ++ occurrences (VDict r))).
      rewrite all_miss_app, all_miss_under. simpl find_items.
      rewrite check_key_non_mapping by exact NM.
      destruct (misses table k); simpl; [|reflexivity].
      simpl in Hv. rewrite Hv.
      destruct (all_miss table (occurrences v)); simpl; [|reflexivity].
      rewrite IHr, !app_nil_r. reflexivity. }
    apply G.
Qed.

(** ** Properties of the loaders, [run] and [main] *)

Lemma load_config_data_text json yaml fs file type s :
  fs file = Some (Text s) ->
  load_config_data json yaml fs file type =
  match parser_for json yaml type with
  | Some parse =>
      match parse s with
      | Ok tree => ([Open file], Return tree)
      | Raise e => ([Open file; Log ERROR (ErrorLoadingConfig e)], Return VNone)
      end
  | None => ([Open file; Log ERROR (UnsupportedType type)], Return VNone)
  end.
Proof.
  intros E. unfold load_config_data, parser_for. rewrite E. simpl.
  destruct (String.eqb type "yaml").
  - unfold yaml_safe_load; simpl. destruct (yaml s); reflexivity.
  - destruct (String.eqb type "json"); [|reflexivity].
    unfold json_load; simpl. destruct (json s); reflexivity.
Qed.

Lemma load_deprecated_features_text json fs file s :
  fs file = Some (Text s) ->
  load_deprecated_features json fs file =
  match json s with
  | Ok table => ([Open file], Return table)
  | Raise e => ([Open file; Log ERROR (ErrorLoadingDeprecated e)], Return VNone)
  end.
Proof.
  intros E. unfold load_deprecated_features, json_load. rewrite E. simpl.
  destruct (json s); reflexivity.
Qed.

Lemma load_config_data_returns json yaml fs file type :
  quiet_return (load_config_data json yaml fs file type).
Proof.
  unfold quiet_return, load_config_data.
  destruct (fs file) as [[e|e|s]|]; simpl; try (do 2 eexists; split; reflexivity).
  - destruct (String.eqb type "yaml").
    + unfold yaml_safe_load; simpl. do 2 eexists; split; reflexivity.
    + destruct (String.eqb type "json"); simpl.
      * unfold json_load; simpl. do 2 eexists; split; reflexivity.
      * do 2 eexists; split; reflexivity.
  - destruct (String.eqb type "yaml").
    + unfold yaml_safe_load; simpl.
      destruct (yaml s); do 2 eexists; split; reflexivity.
    + destruct (String.eqb type "json"); simpl.
      * unfold json_load; simpl.
        destruct (json s); do 2 eexists; split; reflexivity.
      * do 2 eexists; split; reflexivity.
Qed.

Lemma load_deprecated_features_returns json fs file :
  quiet_return (load_deprecated_features json fs file).
Proof.
  unfold quiet_return, load_deprecated_features, json_load.
  destruct (fs file) as [[e|e|s]|]; simpl; try (do 2 eexists; split; reflexivity).
  destruct (json s); do 2 eexists; split; reflexivity.
Qed.

Lemma run_load_failure self :
  truthy (config_data self) = false \/ truthy (deprecated_features self) = false ->
  run self = ([Log ERROR FailedToLoad], Return []).
Proof.
  intros H. unfold run.
  assert (E : negb (truthy (config_data self))
              || negb (truthy (deprecated_features self)) = true).
  { destruct H as [H|H]; rewrite H; simpl; auto using orb_true_r. }
  rewrite E. reflexivity.
Qed.

Lemma report_returns found :
  exists t, report found = (t, Return tt) /\ existsb is_invoke t = false.
Proof.
  induction found as [|f r [t [E I]]]; simpl.
  - exists []. auto.
  - rewrite E. simpl. eexists. split; [reflexivity|]. simpl. exact I.
Qed.

Lemma run_scans self found :
  truthy (config_data self) = true ->
  truthy (deprecated_features self) = true ->
  find_deprecated_features (deprecated_features self) (config_data self) "" =
  Ok found ->
  exists t, run self = (Invoke (config_data self) :: t, Return found) /\
            existsb is_invoke t = false.
Proof.
  intros Tc Tt F. unfold run, call_matcher. rewrite Tc, Tt, F. simpl.
  destruct found as [|f r]; simpl.
  - eexists. split; reflexivity.
  - destruct (report r) as [t o] eqn:R.
    destruct (report_returns r) as [t' [E I]]. rewrite R in E.
    inversion E; subst. simpl. eexists. split; [reflexivity|]. simpl.
    rewrite app_nil_r. exact I.
Qed.

Lemma main_missing json yaml fs args :
  path_exists fs (arg_config_file args) = false \/
  path_exists fs (arg_deprecated_features_file args) = false ->
  exists msg, main json yaml fs args = ([Log ERROR msg], Exited 1).
Proof.
  unfold main. destruct (path_exists fs (arg_config_file args)); simpl.
  - intros [H|H]; [discriminate H|]. rewrite H. simpl. eexists; reflexivity.
  - intros _. eexists; reflexivity.
Qed.

Lemma main_present json yaml fs args t1 table t2 data t3 o :
  path_exists fs (arg_config_file args) = true ->
  path_exists fs (arg_deprecated_features_file args) = true ->
  load_deprecated_features json fs (arg_deprecated_features_file args) =
    (t1, Return table) ->
  load_config_data json yaml fs (arg_config_file args)
    (lower (arg_config_type args)) = (t2, Return data) ->
  run (Deprecator (arg_config_file args) (lower (arg_config_type args))
         (arg_deprecated_features_file args) table data) = (t3, o) ->
  main json yaml fs args = (t1 ++ t2 ++ t3, finish o).
Proof.
  intros E1 E2 L1 L2 R. unfold main, init. rewrite E1, E2. simpl.
  rewrite L1. simpl. rewrite L2. simpl. rewrite R.
  destruct o as [found|e|c]; simpl;
    try (destruct (nonempty found); simpl);
    rewrite ?app_nil_r, <- ?app_assoc; reflexivity.
Qed.

(** The two scan scenarios of the specification. *)
Example scenario_a :
  find_deprecated_features
    (VDict [("api_version", VDict [("replacement", VStr "v2")]);
            ("old_setting", VDict [("replacement", VStr "new_setting")])])
    (VDict [("api_version", VStr "v1");
            ("settings", VDict [("old_setting", VInt 123);
                                ("new_setting", VInt 456)])]) "" =
  Ok [Finding "api_version" "api_version" (VDict [("replacement", VStr "v2")]);
      Finding "old_setting" "settings.old_setting"
        (VDict [("replacement", VStr "new_setting")])].
Proof. reflexivity. Qed.

Example scenario_b :
  find_deprecated_features (VDict [("y", VDict [])])
    (VDict [("x", VInt 1)]) "" = Ok [].
Proof. reflexivity. Qed.

(** ** The claims about the matcher *)



(** C4: the path of every finding is the rendering of the position of its
    key, built from the root by the two rules of the walk: a mapping descent
    yields the key itself under an empty path and [path.key] otherwise, a
    sequence descent yields [path[index]].  On the document
    [{"a": {"b": [1, {"c": 2}]}}] every table that contains [c] yields a
    finding for [c], and its path is [a.b[1].c]. *)
Theorem finding_path_construction :
  (forall tbl data,
      exists found,
        find_deprecated_features (VDict tbl) data "" = Ok found /\
        forall f, In f found ->
                  exists pre, In (pre, feature f) (occurrences data) /\
                              path f = render (pre, feature f))
  /\ (forall k, render ([], k) = k)
  /\ (forall pre k,
         render_from "" (pre ++ [Key k]) =
         if String.eqb (render_from "" pre) "" then k
         else (render_from "" pre ++ "." ++ k)%string)
  /\ (forall pre i,
         render_from "" (pre ++ [Idx i]) =
         (render_from "" pre ++ "[" ++ str_of_index i ++ "]")%string)
  /\ (forall pre k, render (pre, k) = render_from "" (pre ++ [Key k]))
  /\ (forall before info after,
         exists found,
           find_deprecated_features
             (VDict (before ++ ("c", info) :: after)) ex_tree "" = Ok found /\
           (exists f, In f found /\ feature f = "c" /\ path f = "a.b[1].c") /\
           (forall f, In f found -> feature f = "c" -> path f = "a.b[1].c")).
Proof.
  split.
  { intros tbl data. eexists. split; [apply find_spec|].
    intros f Hin. apply In_flat_map_hit in Hin.
    destruct Hin as [[pre k] [Hin [_ [Ef Ep]]]]. simpl in *.
    exists pre. rewrite Ef. auto. }
  split; [reflexivity|].
  split; [intros pre k; apply render_from_snoc|].
  split; [intros pre i; apply render_from_snoc|].
  split; [intros pre k; rewrite render_from_snoc; reflexivity|].
  intros before info after. eexists. split; [apply find_spec|].
  set (tbl := before ++ ("c", info) :: after).
  assert (Hc : exists v, assoc "c" tbl = Some v).
  { apply has_key_assoc, has_key_In. unfold tbl.
    rewrite map_app, in_app_iff. right. left. reflexivity. }
  destruct Hc as [v Hc]. split.
  - exists (Finding "c" "a.b[1].c" v). split; [|split; reflexivity].
    apply in_flat_map. exists ([Key "a"; Key "b"; Idx 1%nat], "c").
    split; [simpl; auto|]. unfold hit; simpl. rewrite Hc. left. reflexivity.
  - intros f Hin Ef. apply In_flat_map_hit in Hin.
    destruct Hin as [o [Hin [_ [Eo Ep]]]]. rewrite Ep.
    simpl in Hin. destruct Hin as [E|[E|[E|[]]]]; subst o; simpl in *;
      try reflexivity; rewrite Ef in Eo; discriminate Eo.
Qed.

(** C7: with an empty table the scan of any document yields no finding, and
    with any table the scan of the empty mapping yields no finding; [run]
    returns the empty list in both cases. *)
Theorem empty_table_or_tree_no_findings :
  (forall data p, find_deprecated_features (VDict []) data p = Ok [])
  /\ (forall table p, find_deprecated_features table (VDict []) p = Ok [])
  /\ (forall cf ct df data,
         result_of (run (Deprecator cf ct df (VDict []) data)) = Return [])
  /\ (forall cf ct df table,
         result_of (run (Deprecator cf ct df table (VDict []))) = Return []).
Proof.
  split; [intros data p; rewrite find_spec, flat_map_hit_empty; reflexivity|].
  split; [reflexivity|].
  split; intros; rewrite run_load_failure; simpl; auto.
Qed.




(** ** The claims about the loaders, [run] and [main] *)

Lemma init_returns json yaml fs cf ct df :
  exists t1 table t2 data,
    load_deprecated_features json fs df = (t1, Return table) /\
    load_config_data json yaml fs cf (lower ct) = (t2, Return data) /\
    init json yaml fs cf ct df =
      (t1 ++ t2, Return (Deprecator cf (lower ct) df table data)).
Proof.
  destruct (load_deprecated_features_returns json fs df) as [t1 [table [L1 _]]].
  destruct (load_config_data_returns json yaml fs cf (lower ct))
    as [t2 [data [L2 _]]].
  exists t1, table, t2, data. split; [exact L1|]. split; [exact L2|].
  unfold init. rewrite L1. simpl. rewrite L2. simpl.
  rewrite app_nil_r. reflexivity.
Qed.

Example exit_code_found :
  main sample_json sample_yaml (disk doc_nested doc_c_gone) args_json =
  ([Open "deprecated.json"; Open "config.json";
    Invoke ex_tree; Log WARNING FoundHeader;
    Log WARNING (FeatureLine "c"); Log WARNING (PathLine "a.b[1].c");
    Log WARNING (DetailsLine (VStr "gone")); Log WARNING Separator],
   Exited 2).
Proof. reflexivity. Qed.

Example exit_code_missing :
  main sample_json sample_yaml (disk doc_nested doc_c_gone)
    (Arguments_ "absent.json" "json" "deprecated.json") =
  ([Log ERROR (ConfigNotFound "absent.json")], Exited 1).
Proof. reflexivity. Qed.

(** C10: when both files load and the parsed configuration is falsy, or the
    parsed table is the empty mapping, [run] takes its load-failure branch:
    it logs the failure, returns the empty list without calling the matcher,
    and the process exits with 0.  Null, false, zero, the empty string, the
    empty mapping and the empty sequence are falsy. *)
Theorem falsy_input_is_load_failure json yaml fs args s_cfg s_tbl parse cfg tbl :
  fs (arg_config_file args) = Some (Text s_cfg) ->
  fs (arg_deprecated_features_file args) = Some (Text s_tbl) ->
  parser_for json yaml (lower (arg_config_type args)) = Some parse ->
  parse s_cfg = Ok cfg ->
  json s_tbl = Ok tbl ->
  truthy cfg = false \/ tbl = VDict [] ->
  init json yaml fs (arg_config_file args) (arg_config_type args)
    (arg_deprecated_features_file args) =
    ([Open (arg_deprecated_features_file args); Open (arg_config_file args)],
     Return (Deprecator (arg_config_file args)
                   (lower (arg_config_type args))
                   (arg_deprecated_features_file args) tbl cfg))
  /\ run (Deprecator (arg_config_file args) (lower (arg_config_type args))
            (arg_deprecated_features_file args) tbl cfg) =
       ([Log ERROR FailedToLoad], Return [])
  /\ main json yaml fs args =
       ([Open (arg_deprecated_features_file args); Open (arg_config_file args);
         Log ERROR FailedToLoad], Exited 0)
  /\ matcher_invoked (main json yaml fs args) = false
  /\ exit_status (main json yaml fs args) = 0%Z
  /\ Forall (fun v => truthy v = false)
       [VNone; VBool false; VInt 0; VStr ""; VDict []; VList []].
Proof.
  intros Fc Ft P Pc Pt Falsy.
  assert (L1 : load_deprecated_features json fs
                 (arg_deprecated_features_file args) =
               ([Open (arg_deprecated_features_file args)], Return tbl)).
  { rewrite load_deprecated_features_text with (s := s_tbl) by exact Ft.
    rewrite Pt. reflexivity. }
  assert (L2 : load_config_data json yaml fs (arg_config_file args)
                 (lower (arg_config_type args)) =
               ([Open (arg_config_file args)], Return cfg)).
  { rewrite load_config_data_text with (s := s_cfg) by exact Fc.
    rewrite P, Pc. reflexivity. }
  assert (R : run (Deprecator (arg_config_file args)
                     (lower (arg_config_type args))
                     (arg_deprecated_features_file args) tbl cfg) =
              ([Log ERROR FailedToLoad], Return [])).
  { apply run_load_failure. simpl.
    destruct Falsy as [H|H]; [left; exact H | right; rewrite H; reflexivity]. }
  assert (M : main json yaml fs args =
              ([Open (arg_deprecated_features_file args);
                Open (arg_config_file args); Log ERROR FailedToLoad], Exited 0)).
  { rewrite (main_present json yaml fs args
               (t1 := [Open (arg_deprecated_features_file args)])
               (t2 := [Open (arg_config_file args)])
               (table := tbl) (data := cfg)
               (t3 := [Log ERROR FailedToLoad]) (o := Return [])); auto.
    - unfold path_exists. rewrite Fc. reflexivity.
    - unfold path_exists. rewrite Ft. reflexivity. }
  split; [unfold init; rewrite L1; simpl; rewrite L2; reflexivity|].
  split; [exact R|]. split; [exact M|]. rewrite M.
  split; [reflexivity|]. split; [reflexivity|].
  repeat constructor.
Qed.

Lemma falsy_input_is_load_failure_witness :
  main sample_json sample_yaml (disk "{}" doc_a1) args_json =
    ([Open "deprecated.json"; Open "config.json"; Log ERROR FailedToLoad],
     Exited 0) /\
  main sample_json sample_yaml (disk doc_a1 "{}") args_json =
    ([Open "deprecated.json"; Open "config.json"; Log ERROR FailedToLoad],
     Exited 0).
Proof.
  split.
  - exact (proj1 (proj2 (proj2
      (falsy_input_is_load_failure sample_json sample_yaml
         (disk "{}" doc_a1) args_json (s_cfg := "{}") (s_tbl := doc_a1)
         (parse := sample_json) (cfg := VDict []) (tbl := VDict [("a", VInt 1)])
         eq_refl eq_refl eq_refl eq_refl eq_refl (or_introl eq_refl))))).
  - exact (proj1 (proj2 (proj2
      (falsy_input_is_load_failure sample_json sample_yaml
         (disk doc_a1 "{}") args_json (s_cfg := doc_a1) (s_tbl := "{}")
         (parse := sample_json) (cfg := VDict [("a", VInt 1)]) (tbl := VDict [])
         eq_refl eq_refl eq_refl eq_refl eq_refl (or_intror eq_refl))))).
Defined.

(** Whatever the parsers and the disk: when the configuration file is there
    and its content does not parse, the process exits with 0 and the matcher
    is not called. *)
Lemma main_config_parse_failure json yaml fs args s_cfg parse e :
  fs (arg_config_file args) = Some (Text s_cfg) ->
  path_exists fs (arg_deprecated_features_file args) = true ->
  parser_for json yaml (lower (arg_config_type args)) = Some parse ->
  parse s_cfg = Raise e ->
  result_of (main json yaml fs args) = Exited 0 /\
  matcher_invoked (main json yaml fs args) = false /\
  In (Log ERROR (ErrorLoadingConfig e)) (trace (main json yaml fs args)) /\
  In (Log ERROR FailedToLoad) (trace (main json yaml fs args)).
Proof.
  intros Fc Et P Pc.
  destruct (load_deprecated_features_returns json fs
              (arg_deprecated_features_file args)) as [t1 [table [L1 Q]]].
  assert (L2 : load_config_data json yaml fs (arg_config_file args)
                 (lower (arg_config_type args)) =
               ([Open (arg_config_file args); Log ERROR (ErrorLoadingConfig e)],
                Return VNone)).
  { rewrite load_config_data_text with (s := s_cfg) by exact Fc.
    rewrite P, Pc. reflexivity. }
  assert (Ec : path_exists fs (arg_config_file args) = true).
  { unfold path_exists. rewrite Fc. reflexivity. }
  rewrite (main_present json yaml fs args Ec Et L1 L2
             (run_load_failure
                (Deprecator (arg_config_file args)
                   (lower (arg_config_type args))
                   (arg_deprecated_features_file args) table VNone)
                (or_introl eq_refl))).
  split; [reflexivity|]. unfold matcher_invoked, trace. simpl fst.
  split; [rewrite existsb_app, Q; reflexivity|].
  split; apply in_or_app; right; simpl; auto.
Qed.

(** C2 does not hold of the program: on a configuration file that exists
    and does not parse, the matcher is skipped and [run] returns the empty
    list, but [main] then exits with 0, the status of a scan that found
    nothing; a missing file, the other load failure, exits with 1. *)
Theorem parse_failure_exits_like_clean :
  main sample_json sample_yaml (disk "{" doc_a1) args_json =
    ([Open "deprecated.json"; Open "config.json";
      Log ERROR (ErrorLoadingConfig
                   (LoadError "Expecting property name enclosed in double quotes"));
      Log ERROR FailedToLoad],
     Exited 0)
  /\ matcher_invoked (main sample_json sample_yaml (disk "{" doc_a1) args_json)
     = false
  /\ main sample_json sample_yaml (disk doc_x1 doc_a1) args_json =
       ([Open "deprecated.json"; Open "config.json";
         Invoke (VDict [("x", VInt 1)]); Log INFO NoneFound], Exited 0)
  /\ exit_status (main sample_json sample_yaml (disk "{" doc_a1) args_json) =
     exit_status (main sample_json sample_yaml (disk doc_x1 doc_a1) args_json).
Proof. repeat split; reflexivity. Qed.


(** ** Further properties of the matcher *)

Lemma find_elems_spec tbl p l :
  forall i acc,
    find_elems (VDict tbl) p l i acc =
    Ok (acc ++ flat_map (hit tbl p) (occurrences_elems l i)).
Proof.
  induction l as [|y r IH]; intros i acc; simpl.
  - rewrite app_nil_r. reflexivity.
  - rewrite find_spec, IH, flat_map_app, flat_map_hit_under, app_assoc.
    reflexivity.
Qed.

Lemma occurrences_elems_app l1 l2 :
  forall i,
    occurrences_elems (l1 ++ l2) i =
    occurrences_elems l1 i ++ occurrences_elems l2 (i + List.length l1).
Proof.
  induction l1 as [|x r IH]; intros i; simpl.
  - rewrite Nat.add_0_r. reflexivity.
  - rewrite IH, Nat.add_succ_r, app_assoc. reflexivity.
Qed.

Lemma occurrences_dict_app d1 d2 :
  occurrences (VDict (d1 ++ d2)) =
  occurrences (VDict d1) ++ occurrences (VDict d2).
Proof. simpl. apply flat_map_app. Qed.

Lemma assoc_app_some key d e v :
  assoc key d = Some v -> assoc key (d ++ e) = Some v.
Proof.
  induction d as [|[k w] r IH]; simpl; [discriminate|].
  destruct (String.eqb key k); auto.
Qed.

Lemma find_ok_nil_non_mapping table data p found :
  is_mapping table = false ->
  find_deprecated_features table data p = Ok found -> found = [].
Proof.
  intros NM. rewrite find_non_mapping by exact NM.
  destruct (all_miss table (occurrences data)); intros H; inversion H.
  reflexivity.
Qed.

Lemma is_mapping_dict table :
  is_mapping table = true -> exists tbl, table = VDict tbl.
Proof. destruct table; try discriminate. eexists; reflexivity. Qed.

Lemma prefix_refl s : String.prefix s s = true.
Proof. induction s as [|c r IH]; simpl; [reflexivity|].
  destruct (ascii_dec c c) as [_|N]; [exact IH | contradiction]. Qed.

Lemma prefix_trans a : forall b c,
  String.prefix a b = true -> String.prefix b c = true ->
  String.prefix a c = true.
Proof.
  induction a as [|x a IH]; intros b c Hab Hbc; [destruct c; reflexivity|].
  destruct b as [|y b]; [discriminate Hab|].
  destruct c as [|z c]; [discriminate Hbc|]. simpl in *.
  destruct (ascii_dec x y) as [->|]; [|discriminate Hab].
  destruct (ascii_dec y z) as [->|]; [|discriminate Hbc].
  destruct (ascii_dec z z) as [_|N]; [|contradiction].
  apply (IH b c); assumption.
Qed.

Lemma prefix_append a b : String.prefix a (a ++ b)%string = true.
Proof.
  induction a as [|x a IH]; simpl; [destruct b; reflexivity|].
  destruct (ascii_dec x x) as [_|N]; [exact IH | contradiction].
Qed.

Lemma prefix_step_path p s : String.prefix p (step_path p s) = true.
Proof.
  destruct s as [k|i]; simpl.
  - unfold key_path. destruct (String.eqb p "") eqn:E.
    + apply String.eqb_eq in E. subst. destruct k; reflexivity.
    + apply prefix_append.
  - apply prefix_append.
Qed.

Lemma prefix_render_from pre : forall p,
  String.prefix p (render_from p pre) = true.
Proof.
  induction pre as [|s r IH]; intros p; simpl.
  - apply prefix_refl.
  - apply prefix_trans with (b := step_path p s);
      [apply prefix_step_path | apply IH].
Qed.

Lemma find_ok_In table data p found f :
  find_deprecated_features table data p = Ok found -> In f found ->
  exists tbl o,
    table = VDict tbl /\ In o (occurrences data) /\
    assoc (snd o) tbl = Some (deprecation_info f) /\
    feature f = snd o /\
    path f = key_path (render_from p (fst o)) (snd o).
Proof.
  intros F Hin. destruct (is_mapping table) eqn:M.
  - destruct (is_mapping_dict table M) as [tbl ->].
    rewrite find_spec in F. inversion F; subst found.
    apply In_flat_map_hit in Hin. destruct Hin as [o H].
    exists tbl, o. tauto.
  - apply find_ok_nil_non_mapping in F; [|exact M]. subst found.
    contradiction.
Qed.

(** X1: the info of every finding is the entry that the table holds under the
    finding's feature, and the feature is a mapping key of the document. *)
Theorem finding_info_is_table_entry tbl data p found f :
  find_deprecated_features (VDict tbl) data p = Ok found ->
  In f found ->
  assoc (feature f) tbl = Some (deprecation_info f) /\
  exists pre, In (pre, feature f) (occurrences data).
Proof.
  intros F Hin.
  destruct (@find_ok_In _ _ _ _ _ F Hin) as [tbl' [[pre k] [E [Ho [Ha [Ef _]]]]]].
  inversion E; subst tbl'. simpl in *. rewrite Ef. split; [exact Ha|].
  exists pre. exact Ho.
Qed.

Lemma finding_info_is_table_entry_witness :
  assoc "c" tbl_c = Some (VStr "gone") /\
  exists pre, In (pre, "c") (occurrences dup_tree).
Proof.
  exact (@finding_info_is_table_entry tbl_c dup_tree ""
           [Finding "c" "c" (VStr "gone"); Finding "c" "c.c" (VStr "gone")]
           (Finding "c" "c.c" (VStr "gone")) eq_refl
           (or_intror (or_introl eq_refl))).
Defined.

(** X2: whatever the table, the path of every finding of a scan that starts
    at path [p] begins with [p]. *)
Theorem finding_path_extends_start_path table data p found f :
  find_deprecated_features table data p = Ok found ->
  In f found ->
  String.prefix p (path f) = true.
Proof.
  intros F Hin.
  destruct (@find_ok_In _ _ _ _ _ F Hin) as [tbl [[pre k] [_ [_ [_ [_ Ep]]]]]].
  rewrite Ep. simpl.
  apply prefix_trans with (b := render_from p pre);
    [apply prefix_render_from|].
  apply (prefix_step_path (render_from p pre) (Key k)).
Qed.

Lemma finding_path_extends_start_path_witness :
  String.prefix "root" "root.c.c" = true.
Proof.
  exact (@finding_path_extends_start_path (VDict tbl_c) dup_tree "root"
           [Finding "c" "root.c" (VStr "gone");
            Finding "c" "root.c.c" (VStr "gone")]
           (Finding "c" "root.c.c" (VStr "gone")) eq_refl
           (or_intror (or_introl eq_refl))).
Defined.

(** X3: the path of every finding ends with its feature: it is the feature
    itself, or a path, a dot and the feature. *)
Theorem finding_path_ends_with_feature table data p found f :
  find_deprecated_features table data p = Ok found ->
  In f found ->
  path f = feature f \/
  exists q, q <> "" /\ path f = (q ++ "." ++ feature f)%string.
Proof.
  intros F Hin.
  destruct (@find_ok_In _ _ _ _ _ F Hin) as [tbl [[pre k] [_ [_ [_ [Ef Ep]]]]]].
  simpl in *. rewrite Ep, Ef. unfold key_path.
  destruct (String.eqb (render_from p pre) "") eqn:E; [left; reflexivity|].
  right. exists (render_from p pre). split; [|reflexivity].
  apply String.eqb_neq, E.
Qed.

Lemma finding_path_ends_with_feature_witness :
  "c.c" = "c" \/ exists q, q <> "" /\ "c.c" = (q ++ "." ++ "c")%string.
Proof.
  exact (@finding_path_ends_with_feature (VDict tbl_c) dup_tree ""
           [Finding "c" "c" (VStr "gone"); Finding "c" "c.c" (VStr "gone")]
           (Finding "c" "c.c" (VStr "gone")) eq_refl
           (or_intror (or_introl eq_refl))).
Defined.

(** X4: with a mapping as table, the scan of a mapping made of two runs of
    entries is the scan of the first followed by the scan of the second; the
    scan of a sequence made of two runs of elements is the scan of the first
    followed by the scan of the second with its indices shifted by the
    length of the first. *)
Theorem find_distributes_over_append tbl p :
  (forall d1 d2,
      exists a b,
        find_deprecated_features (VDict tbl) (VDict d1) p = Ok a /\
        find_deprecated_features (VDict tbl) (VDict d2) p = Ok b /\
        find_deprecated_features (VDict tbl) (VDict (d1 ++ d2)) p =
          Ok (a ++ b))
  /\ (forall l1 l2,
        exists a b,
          find_deprecated_features (VDict tbl) (VList l1) p = Ok a /\
          find_elems (VDict tbl) p l2 (List.length l1) [] = Ok b /\
          find_deprecated_features (VDict tbl) (VList (l1 ++ l2)) p =
            Ok (a ++ b)).
Proof.
  split.
  - intros d1 d2. do 2 eexists.
    split; [apply find_spec|]. split; [apply find_spec|].
    rewrite find_spec, occurrences_dict_app, flat_map_app. reflexivity.
  - intros l1 l2. do 2 eexists.
    split; [apply find_spec|]. split; [apply find_elems_spec|].
    rewrite find_spec, !occurrences_list_eq, occurrences_elems_app,
      flat_map_app. reflexivity.
Qed.

Lemma hit_extension tbl extra p o :
  hit tbl p o =
  filter (fun f => has_key (feature f) tbl) (hit (tbl ++ extra) p o).
Proof.
  unfold hit. destruct (assoc (snd o) tbl) as [v|] eqn:A.
  - apply assoc_app_some with (e := extra) in A as A'. rewrite A'. simpl.
    assert (K : has_key (snd o) tbl = true)
      by (apply has_key_assoc; exists v; exact A).
    rewrite K. reflexivity.
  - apply has_key_false in A.
    destruct (assoc (snd o) (tbl ++ extra)); simpl; [rewrite A|]; reflexivity.
Qed.

Lemma filter_flat_map {A B} (g : B -> bool) (h : A -> list B) l :
  filter g (flat_map h l) = flat_map (fun x => filter g (h x)) l.
Proof.
  induction l as [|x r IH]; simpl; [reflexivity|].
  rewrite filter_app, IH. reflexivity.
Qed.

(** X5: entries added after those of a table only add findings: the scan
    against the shorter table is the scan against the longer one, restricted
    to the features of the shorter. *)
Theorem find_table_extension tbl extra data p :
  exists big,
    find_deprecated_features (VDict (tbl ++ extra)) data p = Ok big /\
    find_deprecated_features (VDict tbl) data p =
      Ok (filter (fun f => has_key (feature f) tbl) big).
Proof.
  eexists. split; [apply find_spec|].
  rewrite find_spec, filter_flat_map. f_equal.
  apply flat_map_ext. intros o. apply hit_extension.
Qed.

(** ** Further properties of the loaders, [run] and [main] *)

(** Closes a loader case: the trace and the value are given by
    computation, and each clause about them follows by inspection. *)
Ltac loader_case :=
  do 2 eexists; (split; [reflexivity|]); simpl;
  repeat split; auto; try discriminate; try lia;
  try (intros _; repeat eexists; eauto).

Lemma load_deprecated_features_cases json fs file :
  exists t v,
    load_deprecated_features json fs file = (t, Return v) /\
    existsb is_invoke t = false /\
    (existsb is_error t = true -> v = VNone) /\
    (existsb is_error t = false ->
     exists s, fs file = Some (Text s) /\ json s = Ok v /\ t = [Open file]) /\
    (List.length (filter is_error t) <= 1)%nat.
Proof.
  unfold load_deprecated_features, json_load.
  destruct (fs file) as [[e|e|s]|]; simpl; try loader_case.
  destruct (json s) as [v|e] eqn:J; loader_case.
Qed.

Lemma load_config_data_cases json yaml fs file type :
  exists t v,
    load_config_data json yaml fs file type = (t, Return v) /\
    existsb is_invoke t = false /\
    (existsb is_error t = true -> v = VNone) /\
    (existsb is_error t = false ->
     exists s parse,
       fs file = Some (Text s) /\ parser_for json yaml type = Some parse /\
       parse s = Ok v /\ t = [Open file]) /\
    (List.length (filter is_error t) <= 1)%nat /\
    (path_exists fs file = true -> In (Open file) t).
Proof.
  unfold load_config_data, parser_for, path_exists, yaml_safe_load, json_load.
  destruct (fs file) as [[e|e|s]|]; simpl.
  - loader_case.
  - destruct (String.eqb type "yaml"); [|destruct (String.eqb type "json")];
      simpl; loader_case.
  - destruct (String.eqb type "yaml");
      [destruct (yaml s) as [v|e] eqn:P
      |destruct (String.eqb type "json"); [destruct (json s) as [v|e] eqn:P|]];
      simpl; loader_case.
  - loader_case.
Qed.

Lemma report_eq found : report found = (flat_map report_lines found, Return tt).
Proof.
  induction found as [|f r IH]; simpl; [reflexivity|].
  rewrite IH. reflexivity.
Qed.

Lemma report_lines_no_error found :
  existsb is_error (flat_map report_lines found) = false.
Proof. induction found as [|f r IH]; simpl; [reflexivity | exact IH]. Qed.

Lemma report_trace_no_error found :
  existsb is_error (report_trace found) = false.
Proof.
  unfold report_trace. destruct (nonempty found); simpl;
    [apply report_lines_no_error | reflexivity].
Qed.

Lemma run_scan_eq self found :
  truthy (config_data self) = true ->
  truthy (deprecated_features self) = true ->
  find_deprecated_features (deprecated_features self) (config_data self) "" =
    Ok found ->
  run self = (Invoke (config_data self) :: report_trace found, Return found).
Proof.
  intros Tc Tt F. unfold run, call_matcher, report_trace.
  rewrite Tc, Tt, F. simpl.
  destruct found as [|f r]; simpl; [reflexivity|].
  rewrite report_eq. simpl. rewrite app_nil_r. reflexivity.
Qed.

Lemma run_raise_eq self e :
  truthy (config_data self) = true ->
  truthy (deprecated_features self) = true ->
  find_deprecated_features (deprecated_features self) (config_data self) "" =
    Raise e ->
  run self = ([Invoke (config_data self)], Raised e).
Proof.
  intros Tc Tt F. unfold run, call_matcher. rewrite Tc, Tt, F. reflexivity.
Qed.

Lemma find_raise_is_TypeError table data p e :
  find_deprecated_features table data p = Raise e ->
  e = TypeError /\ is_mapping table = false.
Proof.
  intros F. destruct (is_mapping table) eqn:M.
  - destruct (is_mapping_dict table M) as [tbl ->].
    rewrite find_spec in F. discriminate F.
  - rewrite find_non_mapping in F by exact M.
    destruct (all_miss table (occurrences data)); inversion F. auto.
Qed.

(** The three ways [run] ends. *)
Lemma run_cases self :
  ((truthy (config_data self) = false \/
    truthy (deprecated_features self) = false) /\
   run self = ([Log ERROR FailedToLoad], Return []))
  \/ (truthy (config_data self) = true /\
      truthy (deprecated_features self) = true /\
      exists found,
        find_deprecated_features (deprecated_features self)
          (config_data self) "" = Ok found /\
        run self =
          (Invoke (config_data self) :: report_trace found, Return found))
  \/ (truthy (config_data self) = true /\
      truthy (deprecated_features self) = true /\
      is_mapping (deprecated_features self) = false /\
      run self = ([Invoke (config_data self)], Raised TypeError)).
Proof.
  destruct (truthy (config_data self)) eqn:Tc;
    [|left; split; [auto | apply run_load_failure; auto]].
  destruct (truthy (deprecated_features self)) eqn:Tt;
    [|left; split; [auto | apply run_load_failure; auto]].
  destruct (find_deprecated_features (deprecated_features self)
              (config_data self) "") as [found|e] eqn:F.
  - right. left. split; [reflexivity|]. split; [reflexivity|].
    exists found. split; [reflexivity|]. apply run_scan_eq; assumption.
  - right. right. destruct (find_raise_is_TypeError _ _ _ F) as [-> M].
    split; [reflexivity|]. split; [reflexivity|]. split; [exact M|].
    apply run_raise_eq; assumption.
Qed.

(** X7: whatever the disk holds and the parser does, the table loader
    returns and never raises.  It logs at most one error, and when it logs
    one it returns [None]; when it logs none, the file is a text file that
    parsed to the value returned, and opening it was the only effect. *)
Theorem load_deprecated_features_outcome json fs file :
  exists t v,
    load_deprecated_features json fs file = (t, Return v) /\
    (existsb is_error t = true -> v = VNone) /\
    (existsb is_error t = false ->
     exists s, fs file = Some (Text s) /\ json s = Ok v /\ t = [Open file]) /\
    (List.length (filter is_error t) <= 1)%nat.
Proof.
  destruct (load_deprecated_features_cases json fs file)
    as [t [v [L [_ [E [N B]]]]]].
  exists t, v. auto.
Qed.

(** X8: whatever the disk holds, the declared type is and the parsers do,
    the configuration loader returns and never raises.  It logs at most one
    error, and when it logs one it returns [None]; when it logs none, the
    file is a text file that the parser of the declared type parsed to the
    value returned.  A file that exists is opened whatever the declared
    type is, also when the type is unsupported. *)
Theorem load_config_data_outcome json yaml fs file type :
  exists t v,
    load_config_data json yaml fs file type = (t, Return v) /\
    (existsb is_error t = true -> v = VNone) /\
    (existsb is_error t = false ->
     exists s parse,
       fs file = Some (Text s) /\ parser_for json yaml type = Some parse /\
       parse s = Ok v /\ t = [Open file]) /\
    (List.length (filter is_error t) <= 1)%nat /\
    (path_exists fs file = true -> In (Open file) t).
Proof.
  destruct (load_config_data_cases json yaml fs file type)
    as [t [v [L [_ H]]]].
  exists t, v. auto.
Qed.

(** X9: the constructor never raises: it loads the table, then the
    configuration, and returns the object that holds both results and the
    declared type in lower case. *)
Theorem init_never_raises json yaml fs cf ct df :
  exists t1 table t2 data,
    load_deprecated_features json fs df = (t1, Return table) /\
    load_config_data json yaml fs cf (lower ct) = (t2, Return data) /\
    init json yaml fs cf ct df =
      (t1 ++ t2, Return (Deprecator cf (lower ct) df table data)).
Proof. apply init_returns. Qed.

(** X11: when both loaded values are truthy and the scan returns, [run]
    returns the findings of the scan unchanged and logs, after the call, the
    header and four warnings per finding in the order of the findings, or
    the one information record when there is no finding; it logs no
    error. *)
Theorem run_reports_findings cf ct df table data found :
  truthy data = true ->
  truthy table = true ->
  find_deprecated_features table data "" = Ok found ->
  run (Deprecator cf ct df table data) =
    (Invoke data :: report_trace found, Return found) /\
  existsb is_error (trace (run (Deprecator cf ct df table data))) = false.
Proof.
  intros Tc Tt F.
  assert (R : run (Deprecator cf ct df table data) =
              (Invoke data :: report_trace found, Return found)).
  { apply (run_scan_eq (Deprecator cf ct df table data)); assumption. }
  split; [exact R|]. rewrite R. simpl. apply report_trace_no_error.
Qed.

Lemma run_reports_findings_witness :
  run (Deprecator "config.json" "json" "deprecated.json" (VDict tbl_c) dup_tree) =
    ([Invoke dup_tree; Log WARNING FoundHeader;
      Log WARNING (FeatureLine "c"); Log WARNING (PathLine "c");
      Log WARNING (DetailsLine (VStr "gone")); Log WARNING Separator;
      Log WARNING (FeatureLine "c"); Log WARNING (PathLine "c.c");
      Log WARNING (DetailsLine (VStr "gone")); Log WARNING Separator],
     Return [Finding "c" "c" (VStr "gone"); Finding "c" "c.c" (VStr "gone")]).
Proof.
  exact (proj1 (@run_reports_findings "config.json" "json" "deprecated.json"
                  (VDict tbl_c) dup_tree
                  [Finding "c" "c" (VStr "gone"); Finding "c" "c.c" (VStr "gone")]
                  eq_refl eq_refl eq_refl)).
Defined.

Lemma main_cases json yaml fs args :
  ((path_exists fs (arg_config_file args) = false \/
    path_exists fs (arg_deprecated_features_file args) = false) /\
   exists msg, main json yaml fs args = ([Log ERROR msg], Exited 1))
  \/ (path_exists fs (arg_config_file args) = true /\
      path_exists fs (arg_deprecated_features_file args) = true /\
      exists t1 table t2 data,
        load_deprecated_features json fs (arg_deprecated_features_file args) =
          (t1, Return table) /\
        load_config_data json yaml fs (arg_config_file args)
          (lower (arg_config_type args)) = (t2, Return data) /\
        existsb is_invoke t1 = false /\ existsb is_invoke t2 = false /\
        (existsb is_error t1 = true -> table = VNone) /\
        (existsb is_error t2 = true -> data = VNone) /\
        (existsb is_error t1 = false ->
         t1 = [Open (arg_deprecated_features_file args)]) /\
        (existsb is_error t2 = false -> t2 = [Open (arg_config_file args)]) /\
        forall t3 o,
          run (Deprecator (arg_config_file args) (lower (arg_config_type args))
                 (arg_deprecated_features_file args) table data) = (t3, o) ->
          main json yaml fs args = (t1 ++ t2 ++ t3, finish o)).
Proof.
  destruct (path_exists fs (arg_config_file args)) eqn:E1;
    [destruct (path_exists fs (arg_deprecated_features_file args)) eqn:E2|].
  - right. split; [reflexivity|]. split; [reflexivity|].
    destruct (load_deprecated_features_cases json fs
                (arg_deprecated_features_file args))
      as [t1 [table [L1 [I1 [N1 [O1 _]]]]]].
    destruct (load_config_data_cases json yaml fs (arg_config_file args)
                (lower (arg_config_type args)))
      as [t2 [data [L2 [I2 [N2 [O2 _]]]]]].
    exists t1, table, t2, data. repeat (split; [assumption|]).
    split; [intros H; destruct (O1 H) as [s [_ [_ T]]]; exact T|].
    split; [intros H; destruct (O2 H) as [s [q [_ [_ [_ T]]]]]; exact T|].
    intros t3 o R. eapply main_present; eassumption.
  - left. split; [auto|]. apply main_missing. auto.
  - left. split; [auto|]. apply main_missing. auto.
Qed.

Lemma truthy_not_None v : truthy v = true -> v <> VNone.
Proof. intros T E. subst. discriminate T. Qed.

Lemma no_error_of_truthy t v :
  (existsb is_error t = true -> v = VNone) -> truthy v = true ->
  existsb is_error t = false.
Proof.
  intros N T. destruct (existsb is_error t); [|reflexivity].
  exfalso. apply (@truthy_not_None v T), N. reflexivity.
Qed.

(** X14: whenever an error is logged the matcher has not been called, and
    the process exits with 1 (a file is missing) or with 0 (a load failed or
    gave a falsy value). *)
Theorem main_logged_error_status json yaml fs args :
  existsb is_error (trace (main json yaml fs args)) = true ->
  matcher_invoked (main json yaml fs args) = false /\
  (result_of (main json yaml fs args) = Exited 1 \/
   result_of (main json yaml fs args) = Exited 0).
Proof.
  destruct (main_cases json yaml fs args)
    as [[Miss [msg M]]
       |[E1 [E2 [t1 [table [t2 [data [_ [_ [I1 [I2 [N1 [N2 [_ [_ M]]]]]]]]]]]]]]].
  - rewrite M. simpl. auto.
  - set (self := Deprecator (arg_config_file args)
                   (lower (arg_config_type args))
                   (arg_deprecated_features_file args) table data) in *.
    destruct (run_cases self)
      as [[_ R]|[[Tc [Tt [found [_ R]]]]|[Tc [Tt [_ R]]]]];
      rewrite (M _ _ R); unfold matcher_invoked, trace; simpl fst;
      rewrite !existsb_app.
    + intros _. rewrite I1, I2. simpl. auto.
    + rewrite (@no_error_of_truthy _ _ N1 Tt), (@no_error_of_truthy _ _ N2 Tc).
      simpl. rewrite report_trace_no_error. discriminate.
    + rewrite (@no_error_of_truthy _ _ N1 Tt), (@no_error_of_truthy _ _ N2 Tc).
      simpl. discriminate.
Qed.

Lemma main_logged_error_status_witness :
  matcher_invoked (main sample_json sample_yaml (disk "{" doc_a1) args_json)
    = false /\
  (result_of (main sample_json sample_yaml (disk "{" doc_a1) args_json)
     = Exited 1 \/
   result_of (main sample_json sample_yaml (disk "{" doc_a1) args_json)
     = Exited 0).
Proof.
  exact (main_logged_error_status sample_json sample_yaml
           (disk "{" doc_a1) args_json eq_refl).
Defined.

(** ** The matcher on the object store: simulation *)

Lemma denotes_list_eq h l s :
  denotes h (VList l) s =
  exists a items,
    s = SRef a /\ nth_error h a = Some (OList items) /\ denotes_items h l items.
Proof. reflexivity. Qed.

Lemma denotes_dict_eq h d s :
  denotes h (VDict d) s =
  exists a entries,
    s = SRef a /\ nth_error h a = Some (ODict entries) /\
    denotes_entries h d entries.
Proof. reflexivity. Qed.

Lemma length_store h : forall a o, List.length (store h a o) = List.length h.
Proof.
  induction h as [|x r IH]; intros [|a] o; simpl; auto.
Qed.

Lemma nth_error_store_same h : forall a o,
  (a < List.length h)%nat -> nth_error (store h a o) a = Some o.
Proof.
  induction h as [|x r IH]; intros [|a] o L; simpl in *; try lia; auto.
  apply IH. lia.
Qed.

Lemma nth_error_store_other h : forall a b o,
  a <> b -> nth_error (store h a o) b = nth_error h b.
Proof.
  induction h as [|x r IH]; intros [|a] [|b] o N; simpl; auto;
    try contradiction.
Qed.

Lemma preserved_refl h : preserved h h.
Proof. intros a o E. exact E. Qed.

Lemma preserved_trans h1 h2 h3 :
  preserved h1 h2 -> preserved h2 h3 -> preserved h1 h3.
Proof. intros P Q a o E. apply Q, P, E. Qed.

Lemma preserved_app h more : preserved h (h ++ more).
Proof.
  intros a o E. rewrite nth_error_app1; [exact E|].
  apply nth_error_Some. rewrite E. discriminate.
Qed.

Lemma frame_trans lst h1 h2 h3 :
  frame lst h1 h2 -> frame lst h2 h3 -> frame lst h1 h3.
Proof. intros P Q a o N E. apply Q; [exact N|]. apply P; assumption. Qed.

Lemma preserved_frame lst h h' : preserved h h' -> frame lst h h'.
Proof. intros P a o _ E. apply P, E. Qed.

Lemma frame_store lst h o : frame lst h (store h lst o).
Proof. intros a x N E. rewrite nth_error_store_other by auto. exact E. Qed.

Lemma nth_error_valid h a (o : pyobj) :
  nth_error h a = Some o -> (a < List.length h)%nat.
Proof. intros E. apply nth_error_Some. rewrite E. discriminate. Qed.

Lemma denotes_preserved h h' : preserved h h' ->
  forall v s, denotes h v s -> denotes h' v s.
Proof.
  intros P v.
  induction v as [| | | | |l IH|d IH] using value_ind; intros sl D;
    try exact D.
  - rewrite denotes_list_eq in *. destruct D as [a [items [E [L A]]]].
    exists a, items. split; [exact E|]. split; [apply P, L|].
    clear L E. revert items A.
    induction IH as [|x r Hx _ IHr]; intros [|i items] A; simpl in *; auto.
    destruct A as [A1 A2]. split; [apply Hx, A1 | apply IHr, A2].
  - rewrite denotes_dict_eq in *. destruct D as [a [entries [E [L A]]]].
    exists a, entries. split; [exact E|]. split; [apply P, L|].
    clear L E. revert entries A.
    induction IH as [|kv r Hx _ IHr]; intros [|e entries] A; simpl in *; auto.
    destruct A as [A0 [A1 A2]]. split; [exact A0|].
    split; [apply Hx, A1 | apply IHr, A2].
Qed.

Lemma slot_eq_str_denotes h key x i :
  denotes h x i -> slot_eq_str key i = str_eq_value key x.
Proof.
  destruct x; simpl; intros D; subst; try reflexivity;
    destruct D as [a [y [E _]]]; subst; reflexivity.
Qed.

Lemma existsb_items_denotes h key l : forall items,
  denotes_items h l items ->
  existsb (slot_eq_str key) items = existsb (str_eq_value key) l.
Proof.
  induction l as [|x r IH]; intros [|i items] A; simpl in *;
    try contradiction; [reflexivity|].
  destruct A as [A1 A2].
  rewrite slot_eq_str_denotes with (h := h) (x := x) by exact A1.
  rewrite (IH _ A2). reflexivity.
Qed.

Lemma has_key_entries_denotes h key d : forall entries,
  denotes_entries h d entries ->
  existsb (fun e => String.eqb key (fst e)) entries = has_key key d.
Proof.
  unfold has_key.
  induction d as [|kv r IH]; intros [|e entries] A; simpl in *;
    try contradiction; [reflexivity|].
  destruct A as [A0 [_ A2]]. rewrite A0, (IH _ A2). reflexivity.
Qed.

Lemma in_heap_denotes h0 hc tv table key :
  denotes h0 tv table -> preserved h0 hc ->
  in_heap hc key table = py_in key tv.
Proof.
  intros D P. destruct tv; try (simpl in D; subst; reflexivity).
  - rewrite denotes_list_eq in D. destruct D as [a [items [E [L A]]]].
    subst. simpl. rewrite (P _ _ L).
    rewrite existsb_items_denotes with (h := h0) (l := l) by exact A.
    reflexivity.
  - rewrite denotes_dict_eq in D. destruct D as [a [entries [E [L A]]]].
    subst. simpl. rewrite (P _ _ L).
    rewrite has_key_entries_denotes with (h := h0) (d := d) by exact A.
    reflexivity.
Qed.

Lemma assoc_entries_denotes h key d : forall entries,
  denotes_entries h d entries ->
  match assoc key d with
  | Some info => exists s, assoc_slot key entries = Some s /\ denotes h info s
  | None => assoc_slot key entries = None
  end.
Proof.
  induction d as [|[k v] r IH]; intros [|[k' s] entries] A; simpl in *;
    try contradiction; [reflexivity|].
  destruct A as [A0 [A1 A2]]. subst k'.
  destruct (String.eqb key k); [exists s; auto | apply IH, A2].
Qed.

Lemma getitem_heap_denotes h0 hc tv table key :
  denotes h0 tv table -> preserved h0 hc ->
  match py_getitem tv key with
  | Ok info => exists s, getitem_heap hc table key = Ok s /\ denotes h0 info s
  | Raise e => getitem_heap hc table key = Raise e
  end.
Proof.
  intros D P. destruct tv; try (simpl in D; subst; reflexivity).
  - rewrite denotes_list_eq in D. destruct D as [a [items [E [L A]]]].
    subst. simpl. rewrite (P _ _ L). reflexivity.
  - rewrite denotes_dict_eq in D. destruct D as [a [entries [E [L A]]]].
    subst. simpl. rewrite (P _ _ L).
    pose proof (@assoc_entries_denotes h0 key d entries A) as H.
    destruct (assoc key d) as [info|].
    + destruct H as [s [E D]]. rewrite E. exists s. auto.
    + rewrite H. reflexivity.
Qed.

Lemma finding_at_frame h0 lst h h' items s f :
  frame lst h h' -> nth_error h lst = Some (OList items) ->
  finding_at h0 h s f -> finding_at h0 h' s f.
Proof.
  intros F L [a [info [E [N D]]]]. exists a, info. split; [exact E|].
  split; [|exact D]. apply F; [|exact N].
  intros ->. rewrite L in N. discriminate N.
Qed.

Lemma Forall2_finding_at_frame h0 lst h h' items slots fs :
  frame lst h h' -> nth_error h lst = Some (OList items) ->
  Forall2 (finding_at h0 h) slots fs -> Forall2 (finding_at h0 h') slots fs.
Proof.
  intros F L A. induction A; constructor; auto.
  eapply finding_at_frame; eauto.
Qed.

Lemma findings_at_preserved h0 h h' a fs :
  preserved h h' -> findings_at h0 h a fs -> findings_at h0 h' a fs.
Proof.
  intros P [items [L A]]. exists items. split; [apply P, L|]. clear L.
  induction A as [|s f ss fs' H _ IH]; [constructor|].
  constructor; [|exact IH].
  destruct H as [b [info [E [N D]]]]. exists b, info.
  split; [exact E|]. split; [apply P, N | exact D].
Qed.

Lemma preserved_of_frame h0 lst hc h' :
  nth_error h0 lst = None -> preserved h0 hc -> frame lst hc h' ->
  preserved h0 h'.
Proof.
  intros Fresh P F a o E. apply F; [|apply P, E].
  intros ->. rewrite Fresh in E. discriminate E.
Qed.

Lemma check_key_sim h0 tv table hc found acc key np :
  denotes h0 tv table -> preserved h0 hc -> findings_at h0 hc found acc ->
  match check_key tv key np with
  | Ok hit =>
      exists hc1,
        check_key_heap hc table found key np = Ok hc1 /\
        frame found hc hc1 /\ findings_at h0 hc1 found (acc ++ hit)
  | Raise e => check_key_heap hc table found key np = Raise e
  end.
Proof.
  intros D P [items [L A]]. unfold check_key, check_key_heap.
  rewrite in_heap_denotes with (h0 := h0) (tv := tv) by assumption.
  destruct (py_in key tv) as [[|]|e]; [| |reflexivity].
  - pose proof (@getitem_heap_denotes h0 hc tv table key D P) as G.
    destruct (py_getitem tv key) as [info|e]; [|rewrite G; reflexivity].
    destruct G as [s [G Ds]]. rewrite G.
    set (w := hc ++ [finding_obj key np s]).
    assert (Lw : nth_error w found = Some (OList items))
      by (apply preserved_app, L).
    assert (Vw : (found < List.length w)%nat)
      by (apply nth_error_valid with (o := OList items), Lw).
    assert (Vh : (found < List.length hc)%nat)
      by (apply nth_error_valid with (o := OList items), L).
    unfold list_append. rewrite Lw.
    set (hc1 := store w found (OList (items ++ [SRef (List.length hc)]))).
    assert (F : frame found hc hc1).
    { apply frame_trans with (h2 := w);
        [apply preserved_frame, preserved_app | apply frame_store]. }
    exists hc1. split; [reflexivity|]. split; [exact F|].
    exists (items ++ [SRef (List.length hc)]).
    split; [apply nth_error_store_same, Vw|].
    apply Forall2_app.
    + apply Forall2_finding_at_frame with (lst := found) (h := hc)
        (items := items); assumption.
    + constructor; [|constructor].
      exists (List.length hc), s. split; [reflexivity|]. split; [|exact Ds].
      unfold hc1. rewrite nth_error_store_other by lia.
      unfold w. rewrite nth_error_app2 by lia.
      rewrite Nat.sub_diag. reflexivity.
  - exists hc. split; [reflexivity|].
    split; [intros a o _ E; exact E|]. rewrite app_nil_r.
    exists items. auto.
Qed.

Lemma extend_sim h0 hc1 h2 found acc sub :
  findings_at h0 hc1 found acc ->
  preserved hc1 h2 ->
  findings_at h0 h2 (List.length hc1) sub ->
  frame found hc1 (list_extend h2 found (List.length hc1)) /\
  findings_at h0 (list_extend h2 found (List.length hc1)) found (acc ++ sub).
Proof.
  intros [items [L A]] P [more [M B]].
  assert (L2 : nth_error h2 found = Some (OList items)) by (apply P, L).
  unfold list_extend. rewrite L2, M.
  set (h3 := store h2 found (OList (items ++ more))).
  assert (F : frame found hc1 h3).
  { apply frame_trans with (h2 := h2);
      [apply preserved_frame, P | apply frame_store]. }
  split; [exact F|].
  exists (items ++ more).
  split; [apply nth_error_store_same, nth_error_valid with (o := OList items),
          L2|].
  apply Forall2_app.
  - apply Forall2_finding_at_frame with (lst := found) (h := hc1)
      (items := items); assumption.
  - apply Forall2_finding_at_frame with (lst := found) (h := h2)
      (items := items); [apply frame_store | exact L2 | exact B].
Qed.

Section Simulation.
Variable h0 : heap.
Variable tv : value.
Variable table : slot.
Hypothesis Htable : denotes h0 tv table.
Variable limit : nat.

Hypothesis IHrec : call_sim h0 tv table limit.
Variable p : string.
Variable found : addr.
Hypothesis Fresh : nth_error h0 found = None.

Lemma items_sim d : forall entries acc hc,
  denotes_entries h0 d entries -> preserved h0 hc ->
  findings_at h0 hc found acc ->
  match items_over tv (find_deprecated_features_within limit tv) p d acc with
  | Ok fs =>
      exists h',
        items_heap table (find_heap limit table) p found entries hc =
          Ok (found, h') /\
        frame found hc h' /\ findings_at h0 h' found fs
  | Raise e =>
      items_heap table (find_heap limit table) p found entries hc = Raise e
  end.
Proof.
  pose proof IHrec as Hrec. unfold call_sim in Hrec.
  induction d as [|[k v] r IH]; intros [|[k' s] entries] acc hc A P I;
    simpl in A; try contradiction.
  - simpl. exists hc. split; [reflexivity|].
    split; [intros a o _ E; exact E | exact I].
  - destruct A as [A0 [A1 A2]]. simpl in A0, A1. subst k'. simpl.
    pose proof (@check_key_sim h0 tv table hc found acc k (key_path p k)
                  Htable P I) as C.
    destruct (check_key tv k (key_path p k)) as [hit|e];
      [|rewrite C; reflexivity].
    destruct C as [hc1 [C [F1 I1]]]. rewrite C.
    assert (P1 : preserved h0 hc1)
      by (apply preserved_of_frame with (lst := found) (hc := hc); assumption).
    pose proof (Hrec v s (key_path p k) hc1 A1 P1) as R.
    destruct (find_deprecated_features_within limit tv v (key_path p k))
      as [sub|e]; [|rewrite R; reflexivity].
    destruct R as [h2 [R [P2 I2]]]. rewrite R. simpl fst. simpl snd.
    destruct (@extend_sim h0 hc1 h2 found (acc ++ hit) sub I1 P2 I2)
      as [F3 I3].
    assert (P3 : preserved h0 (list_extend h2 found (List.length hc1)))
      by (apply preserved_of_frame with (lst := found) (hc := hc1);
          assumption).
    pose proof (IH entries ((acc ++ hit) ++ sub) _ A2 P3 I3) as T.
    destruct (items_over tv (find_deprecated_features_within limit tv) p r
                ((acc ++ hit) ++ sub)) as [fs|e]; [|exact T].
    destruct T as [h' [T [F' I']]]. exists h'. split; [exact T|].
    split; [|exact I'].
    apply frame_trans with (h2 := hc1); [exact F1|].
    apply frame_trans with (h2 := list_extend h2 found (List.length hc1));
      assumption.
Qed.

Lemma elems_sim l : forall items i acc hc,
  denotes_items h0 l items -> preserved h0 hc ->
  findings_at h0 hc found acc ->
  match elems_over (find_deprecated_features_within limit tv) p l i acc with
  | Ok fs =>
      exists h',
        elems_heap (find_heap limit table) p found items i hc =
          Ok (found, h') /\
        frame found hc h' /\ findings_at h0 h' found fs
  | Raise e =>
      elems_heap (find_heap limit table) p found items i hc = Raise e
  end.
Proof.
  pose proof IHrec as Hrec. unfold call_sim in Hrec.
  induction l as [|v r IH]; intros [|s items] i acc hc A P I;
    simpl in A; try contradiction.
  - simpl. exists hc. split; [reflexivity|].
    split; [intros a o _ E; exact E | exact I].
  - destruct A as [A1 A2]. simpl.
    pose proof (Hrec v s (index_path p i) hc A1 P) as R.
    destruct (find_deprecated_features_within limit tv v (index_path p i))
      as [sub|e]; [|rewrite R; reflexivity].
    destruct R as [h2 [R [P2 I2]]]. rewrite R. simpl fst. simpl snd.
    destruct (@extend_sim h0 hc h2 found acc sub I P2 I2) as [F3 I3].
    assert (P3 : preserved h0 (list_extend h2 found (List.length hc)))
      by (apply preserved_of_frame with (lst := found) (hc := hc);
          assumption).
    pose proof (IH items (S i) (acc ++ sub) _ A2 P3 I3) as T.
    destruct (elems_over (find_deprecated_features_within limit tv) p r (S i)
                (acc ++ sub)) as [fs|e]; [|exact T].
    destruct T as [h' [T [F' I']]]. exists h'. split; [exact T|].
    split; [|exact I'].
    apply frame_trans with (h2 := list_extend h2 found (List.length hc));
      assumption.
Qed.
End Simulation.

Lemma preserved_fresh h0 h :
  preserved h0 h -> nth_error h0 (List.length h) = None.
Proof.
  intros P. destruct (nth_error h0 (List.length h)) as [x|] eqn:E;
    [|reflexivity].
  apply P, nth_error_valid in E. lia.
Qed.

Lemma preserved_after_frame h h1 h' :
  preserved h h1 -> frame (List.length h) h1 h' -> preserved h h'.
Proof.
  intros P F a o E. apply F; [|apply P, E].
  apply nth_error_valid in E. lia.
Qed.

Lemma findings_at_new h0 h :
  findings_at h0 (h ++ [OList []]) (List.length h) [].
Proof.
  exists []. split; [|constructor].
  rewrite nth_error_app2 by lia. rewrite Nat.sub_diag. reflexivity.
Qed.

(** The matcher on the store does what the matcher on values does: it
    returns the address of a new list that holds the same findings, or
    raises the same exception, and it leaves every object it found in the
    store in place. *)
Lemma find_heap_sim h0 tv table :
  denotes h0 tv table -> forall limit, call_sim h0 tv table limit.
Proof.
  intros Htable limit. induction limit as [|limit IH]; intros dv data p h D P.
  - reflexivity.
  - assert (Fresh : nth_error h0 (List.length h) = None)
      by (apply preserved_fresh, P).
    assert (P1 : preserved h0 (h ++ [OList []]))
      by (apply preserved_trans with (h2 := h);
          [exact P | apply preserved_app]).
    pose proof (findings_at_new h0 h) as I.
    destruct dv as [| | | | |l|d];
      try (simpl in D; subst data; simpl; exists (h ++ [OList []]);
           split; [reflexivity|]; split; [apply preserved_app | exact I]).
    + rewrite denotes_list_eq in D. destruct D as [a [items [E [L A]]]].
      subst data. simpl. rewrite (P1 _ _ L).
      pose proof (@elems_sim h0 tv table limit IH p (List.length h) Fresh
                    l items 0%nat [] _ A P1 I) as T.
      destruct (elems_over (find_deprecated_features_within limit tv) p l 0 [])
        as [fs|e]; [|exact T].
      destruct T as [h' [T [F I']]]. exists h'. split; [exact T|].
      split; [|exact I'].
      apply preserved_after_frame with (h1 := h ++ [OList []]);
        [apply preserved_app | exact F].
    + rewrite denotes_dict_eq in D. destruct D as [a [entries [E [L A]]]].
      subst data. simpl. rewrite (P1 _ _ L).
      pose proof (@items_sim h0 tv table Htable limit IH p (List.length h)
                    Fresh d entries [] _ A P1 I) as T.
      destruct (items_over tv (find_deprecated_features_within limit tv) p d [])
        as [fs|e]; [|exact T].
      destruct T as [h' [T [F I']]]. exists h'. split; [exact T|].
      split; [|exact I'].
      apply preserved_after_frame with (h1 := h ++ [OList []]);
        [apply preserved_app | exact F].
Qed.

(** ** The matcher under the recursion limit *)

Lemma find_items_over table p d acc :
  find_items table p d acc =
  items_over table (find_deprecated_features table) p d acc.
Proof. reflexivity. Qed.

Lemma find_elems_over table p l i acc :
  find_elems table p l i acc =
  elems_over (find_deprecated_features table) p l i acc.
Proof. reflexivity. Qed.

Lemma items_over_ext table rec rec' p d :
  (forall kv q, In kv d -> rec (snd kv) q = rec' (snd kv) q) ->
  forall acc, items_over table rec p d acc = items_over table rec' p d acc.
Proof.
  induction d as [|[k v] r IH]; intros H acc; simpl; [reflexivity|].
  destruct (check_key table k (key_path p k)) as [hit|e]; [|reflexivity].
  pose proof (H (k, v) (key_path p k) (or_introl eq_refl)) as E.
  simpl in E. rewrite E.
  destruct (rec' v (key_path p k)) as [sub|e]; [|reflexivity].
  apply IH. intros kv q Hin. apply H. right. exact Hin.
Qed.

Lemma elems_over_ext rec rec' p l :
  (forall v q, In v l -> rec v q = rec' v q) ->
  forall i acc, elems_over rec p l i acc = elems_over rec' p l i acc.
Proof.
  induction l as [|v r IH]; intros H i acc; simpl; [reflexivity|].
  rewrite (H v (index_path p i) (or_introl eq_refl)).
  destruct (rec' v (index_path p i)) as [sub|e]; [|reflexivity].
  apply IH. intros w q Hin. apply H. right. exact Hin.
Qed.

Lemma depth_pos data : (1 <= depth data)%nat.
Proof. destruct data; simpl; lia. Qed.

Lemma depth_child_dict d kv n :
  (depth (VDict d) <= S n)%nat -> In kv d -> (depth (snd kv) <= n)%nat.
Proof.
  simpl. intros H Hin. apply le_S_n in H.
  rewrite list_max_le in H. rewrite Forall_forall in H.
  apply H. apply in_map_iff. exists kv. auto.
Qed.

Lemma depth_child_list l v n :
  (depth (VList l) <= S n)%nat -> In v l -> (depth v <= n)%nat.
Proof.
  simpl. intros H Hin. apply le_S_n in H.
  rewrite list_max_le in H. rewrite Forall_forall in H.
  apply H. apply in_map, Hin.
Qed.

(** Within the limit, the matcher is the structural walk. *)
Lemma within_enough table limit : forall data p,
  (depth data <= limit)%nat ->
  find_deprecated_features_within limit table data p =
  find_deprecated_features table data p.
Proof.
  induction limit as [|limit IH]; intros data p H.
  - pose proof (depth_pos data). lia.
  - destruct data as [| | | | |l|d]; try reflexivity.
    + rewrite find_list_eq, find_elems_over. simpl.
      apply elems_over_ext. intros v q Hin. apply IH.
      apply depth_child_list with (l := l); assumption.
    + rewrite find_dict_eq, find_items_over. simpl.
      apply items_over_ext. intros kv q Hin. apply IH.
      apply depth_child_dict with (d := d); assumption.
Qed.

Lemma check_key_raise table key np e :
  check_key table key np = Raise e ->
  e = TypeError /\ is_mapping table = false.
Proof.
  destruct (is_mapping table) eqn:M.
  - destruct (is_mapping_dict table M) as [tbl ->].
    rewrite check_key_dict. discriminate.
  - rewrite check_key_non_mapping by exact M.
    destruct (misses table key); intros H; inversion H. auto.
Qed.

(** The exceptions that leave the matcher. *)
Lemma within_raise table limit : forall data p e,
  find_deprecated_features_within limit table data p = Raise e ->
  (e = TypeError /\ is_mapping table = false) \/ e = RecursionError.
Proof.
  induction limit as [|limit IH]; intros data p e H.
  - inversion H. auto.
  - destruct data as [| | | | |l|d]; try discriminate H; simpl in H.
    + revert H. generalize 0%nat as i. generalize (@nil finding) as acc.
      induction l as [|v r IHl]; intros acc i H; simpl in H;
        [discriminate H|].
      destruct (find_deprecated_features_within limit table v (index_path p i))
        as [sub|e'] eqn:R.
      * apply IHl in H. exact H.
      * inversion H; subst. apply IH in R. exact R.
    + revert H. generalize (@nil finding) as acc.
      induction d as [|[k v] r IHd]; intros acc H; simpl in H;
        [discriminate H|].
      destruct (check_key table k (key_path p k)) as [hit|e'] eqn:C.
      * destruct (find_deprecated_features_within limit table v
                    (key_path p k)) as [sub|e''] eqn:R.
        -- apply IHd in H. exact H.
        -- inversion H; subst. apply IH in R. exact R.
      * inversion H; subst. left. apply check_key_raise in C. exact C.
Qed.

Lemma items_over_deep tbl rec p n d :
  (forall v q, (depth v <= n)%nat -> exists fs, rec v q = Ok fs) ->
  (forall v q, (n < depth v)%nat -> rec v q = Raise RecursionError) ->
  (n < list_max (map (fun kv => depth (snd kv)) d))%nat ->
  forall acc, items_over (VDict tbl) rec p d acc = Raise RecursionError.
Proof.
  intros Hok Hdeep.
  induction d as [|[k v] r IH]; simpl; intros H acc; [lia|].
  rewrite check_key_dict.
  destruct (Nat.le_gt_cases (depth v) n) as [Le|Gt].
  - destruct (Hok v (key_path p k) Le) as [fs E]. rewrite E.
    apply IH. lia.
  - rewrite (Hdeep v (key_path p k) Gt). reflexivity.
Qed.

Lemma elems_over_deep rec p n l :
  (forall v q, (depth v <= n)%nat -> exists fs, rec v q = Ok fs) ->
  (forall v q, (n < depth v)%nat -> rec v q = Raise RecursionError) ->
  (n < list_max (map depth l))%nat ->
  forall i acc, elems_over rec p l i acc = Raise RecursionError.
Proof.
  intros Hok Hdeep.
  induction l as [|v r IH]; simpl; intros H i acc; [lia|].
  destruct (Nat.le_gt_cases (depth v) n) as [Le|Gt].
  - destruct (Hok v (index_path p i) Le) as [fs E]. rewrite E.
    apply IH. lia.
  - rewrite (Hdeep v (index_path p i) Gt). reflexivity.
Qed.

(** With a mapping as table, a document deeper than the limit makes the
    matcher raise [RecursionError]. *)
Lemma within_deep tbl limit : forall data p,
  (limit < depth data)%nat ->
  find_deprecated_features_within limit (VDict tbl) data p =
  Raise RecursionError.
Proof.
  induction limit as [|limit IH]; intros data p H; [reflexivity|].
  assert (Hok : forall v q, (depth v <= limit)%nat ->
                  exists fs,
                    find_deprecated_features_within limit (VDict tbl) v q =
                    Ok fs).
  { intros v q Le. rewrite within_enough by exact Le.
    rewrite find_spec. eexists; reflexivity. }
  destruct data as [| | | | |l|d]; simpl in H; try lia; simpl.
  - apply elems_over_deep with (n := limit); [exact Hok | exact IH | lia].
  - apply items_over_deep with (n := limit); [exact Hok | exact IH | lia].
Qed.

Lemma within_mapping tbl limit data p :
  find_deprecated_features_within limit (VDict tbl) data p =
  if (depth data <=? limit)%nat
  then Ok (flat_map (hit tbl p) (occurrences data))
  else Raise RecursionError.
Proof.
  destruct (depth data <=? limit)%nat eqn:E.
  - apply Nat.leb_le in E. rewrite within_enough by exact E.
    apply find_spec.
  - apply Nat.leb_gt in E. apply within_deep, E.
Qed.

Lemma depth_nest n : depth (nest n) = S n.
Proof.
  induction n as [|n IH]; simpl; [reflexivity|]. rewrite IH. lia.
Qed.

(** ** [run] and [main] over a scan *)

Lemma run_over_cases scan self :
  ((truthy (config_data self) = false \/
    truthy (deprecated_features self) = false) /\
   run_over scan self = ([Log ERROR FailedToLoad], Return []))
  \/ (truthy (config_data self) = true /\
      truthy (deprecated_features self) = true /\
      exists found,
        scan (deprecated_features self) (config_data self) = Ok found /\
        run_over scan self =
          (Invoke (config_data self) :: report_trace found, Return found))
  \/ (truthy (config_data self) = true /\
      truthy (deprecated_features self) = true /\
      exists e,
        scan (deprecated_features self) (config_data self) = Raise e /\
        run_over scan self = ([Invoke (config_data self)], Raised e)).
Proof.
  unfold run_over, call_matcher_over, report_trace.
  destruct (truthy (config_data self)) eqn:Tc; simpl;
    [|left; split; [auto | reflexivity]].
  destruct (truthy (deprecated_features self)) eqn:Tt; simpl;
    [|left; split; [auto | reflexivity]].
  destruct (scan (deprecated_features self) (config_data self))
    as [found|e] eqn:F; simpl.
  - right. left. split; [reflexivity|]. split; [reflexivity|].
    exists found. split; [reflexivity|].
    destruct found as [|f r]; simpl; [reflexivity|].
    rewrite report_eq. simpl. rewrite app_nil_r. reflexivity.
  - right. right. split; [reflexivity|]. split; [reflexivity|].
    exists e. split; reflexivity.
Qed.

Lemma main_over_missing json yaml fs scan args :
  path_exists fs (arg_config_file args) = false \/
  path_exists fs (arg_deprecated_features_file args) = false ->
  exists msg, main_over json yaml fs scan args = ([Log ERROR msg], Exited 1).
Proof.
  unfold main_over. destruct (path_exists fs (arg_config_file args)); simpl.
  - intros [H|H]; [discriminate H|]. rewrite H. simpl. eexists; reflexivity.
  - intros _. eexists; reflexivity.
Qed.

Lemma main_over_present json yaml fs scan args t1 table t2 data t3 o :
  path_exists fs (arg_config_file args) = true ->
  path_exists fs (arg_deprecated_features_file args) = true ->
  load_deprecated_features json fs (arg_deprecated_features_file args) =
    (t1, Return table) ->
  load_config_data json yaml fs (arg_config_file args)
    (lower (arg_config_type args)) = (t2, Return data) ->
  run_over scan
    (Deprecator (arg_config_file args) (lower (arg_config_type args))
       (arg_deprecated_features_file args) table data) = (t3, o) ->
  main_over json yaml fs scan args = (t1 ++ t2 ++ t3, finish o).
Proof.
  intros E1 E2 L1 L2 R. unfold main_over, init. rewrite E1, E2. simpl.
  rewrite L1. simpl. rewrite L2. simpl. rewrite R.
  destruct o as [found|e|c]; simpl;
    try (destruct (nonempty found); simpl);
    rewrite ?app_nil_r, <- ?app_assoc; reflexivity.
Qed.

(** The two ways [main] goes after the command line is parsed: a file is
    missing, or both loaders return and [run] decides. *)
Lemma main_over_cases json yaml fs scan args :
  ((path_exists fs (arg_config_file args) = false \/
    path_exists fs (arg_deprecated_features_file args) = false) /\
   exists msg, main_over json yaml fs scan args = ([Log ERROR msg], Exited 1))
  \/ (path_exists fs (arg_config_file args) = true /\
      path_exists fs (arg_deprecated_features_file args) = true /\
      exists t1 table t2 data,
        init json yaml fs (arg_config_file args) (arg_config_type args)
          (arg_deprecated_features_file args) =
          (t1 ++ t2,
           Return (Deprecator (arg_config_file args)
                     (lower (arg_config_type args))
                     (arg_deprecated_features_file args) table data)) /\
        existsb is_invoke t1 = false /\ existsb is_invoke t2 = false /\
        (existsb is_error t1 = true -> table = VNone) /\
        (existsb is_error t2 = true -> data = VNone) /\
        (existsb is_error t1 = false ->
         t1 = [Open (arg_deprecated_features_file args)]) /\
        (existsb is_error t2 = false -> t2 = [Open (arg_config_file args)]) /\
        forall t3 o,
          run_over scan
            (Deprecator (arg_config_file args) (lower (arg_config_type args))
               (arg_deprecated_features_file args) table data) = (t3, o) ->
          main_over json yaml fs scan args = (t1 ++ t2 ++ t3, finish o)).
Proof.
  destruct (path_exists fs (arg_config_file args)) eqn:E1;
    [destruct (path_exists fs (arg_deprecated_features_file args)) eqn:E2|].
  - right. split; [reflexivity|]. split; [reflexivity|].
    destruct (load_deprecated_features_cases json fs
                (arg_deprecated_features_file args))
      as [t1 [table [L1 [I1 [N1 [O1 _]]]]]].
    destruct (load_config_data_cases json yaml fs (arg_config_file args)
                (lower (arg_config_type args)))
      as [t2 [data [L2 [I2 [N2 [O2 _]]]]]].
    exists t1, table, t2, data.
    split; [unfold init; rewrite L1; simpl; rewrite L2; simpl;
            rewrite app_nil_r; reflexivity|].
    repeat (split; [assumption|]).
    split; [intros H; destruct (O1 H) as [s [_ [_ T]]]; exact T|].
    split; [intros H; destruct (O2 H) as [s [q [_ [_ [_ T]]]]]; exact T|].
    intros t3 o R. eapply main_over_present; eassumption.
  - left. split; [auto|]. apply main_over_missing. auto.
  - left. split; [auto|]. apply main_over_missing. auto.
Qed.


(** ** The claims about the matcher, revisited on the store and under the
    recursion limit *)

(** C8: the matcher is deterministic because it reads the table and the
    document and mutates neither.  On a store in which the table and the
    document live, a scan that returns leaves every object of the store in
    place; a second scan on the store that the first one left returns a new
    list with the same findings in the same order, and the list of the first
    scan still holds them. *)
Theorem scan_twice_on_store limit h table data tv dv fs :
  denotes h tv table ->
  denotes h dv data ->
  find_deprecated_features_within limit tv dv "" = Ok fs ->
  exists h1 h2,
    find_heap limit table data "" h = Ok (List.length h, h1) /\
    find_heap limit table data "" h1 = Ok (List.length h1, h2) /\
    findings_at h h1 (List.length h) fs /\
    findings_at h h2 (List.length h1) fs /\
    findings_at h h2 (List.length h) fs /\
    preserved h h2 /\ denotes h2 tv table /\ denotes h2 dv data.
Proof.
  intros Dt Dd F.
  pose proof (@find_heap_sim h tv table Dt limit) as S1.
  unfold call_sim in S1.
  pose proof (S1 dv data "" h Dd (preserved_refl h)) as R1.
  rewrite F in R1. destruct R1 as [h1 [R1 [P1 I1]]].
  pose proof (S1 dv data "" h1 Dd P1) as R2.
  rewrite F in R2. destruct R2 as [h2 [R2 [P2 I2]]].
  assert (P : preserved h h2) by (apply preserved_trans with (h2 := h1); auto).
  exists h1, h2. split; [exact R1|]. split; [exact R2|].
  split; [exact I1|]. split; [exact I2|].
  split; [apply findings_at_preserved with (h := h1); assumption|].
  split; [exact P|].
  split; apply denotes_preserved with (h := h); assumption.
Qed.

Lemma ex_heap_denotes :
  denotes ex_heap (VDict tbl_c) (SRef 0%nat) /\
  denotes ex_heap ex_tree (SRef 4%nat).
Proof.
  split.
  - exists 0%nat, [("c", SStr "gone")]. simpl. auto.
  - exists 4%nat, [("a", SRef 3%nat)].
    split; [reflexivity|]. split; [reflexivity|].
    split; [reflexivity|]. split; [|exact I].
    exists 3%nat, [("b", SRef 2%nat)].
    split; [reflexivity|]. split; [reflexivity|].
    split; [reflexivity|]. split; [|exact I].
    exists 2%nat, [SInt 1; SRef 1%nat].
    split; [reflexivity|]. split; [reflexivity|].
    split; [reflexivity|]. split; [|exact I].
    exists 1%nat, [("c", SInt 2)]. simpl. auto.
Qed.

Lemma scan_twice_on_store_witness :
  exists h1 h2,
    find_heap 10 (SRef 0%nat) (SRef 4%nat) "" ex_heap =
      Ok (List.length ex_heap, h1) /\
    find_heap 10 (SRef 0%nat) (SRef 4%nat) "" h1 = Ok (List.length h1, h2) /\
    findings_at ex_heap h1 (List.length ex_heap)
      [Finding "c" "a.b[1].c" (VStr "gone")] /\
    findings_at ex_heap h2 (List.length h1)
      [Finding "c" "a.b[1].c" (VStr "gone")] /\
    findings_at ex_heap h2 (List.length ex_heap)
      [Finding "c" "a.b[1].c" (VStr "gone")] /\
    preserved ex_heap h2 /\
    denotes h2 (VDict tbl_c) (SRef 0%nat) /\ denotes h2 ex_tree (SRef 4%nat).
Proof.
  exact (@scan_twice_on_store 10 ex_heap (SRef 0%nat) (SRef 4%nat)
           (VDict tbl_c) ex_tree [Finding "c" "a.b[1].c" (VStr "gone")]
           (proj1 ex_heap_denotes) (proj2 ex_heap_denotes) eq_refl).
Defined.

Example find_heap_run :
  find_heap 10 (SRef 0%nat) (SRef 4%nat) "" ex_heap =
  Ok (5%nat,
      ex_heap ++
      [OList [SRef 10%nat]; OList [SRef 10%nat]; OList [SRef 10%nat];
       OList []; OList [SRef 10%nat];
       finding_obj "c" "a.b[1].c" (SStr "gone"); OList []]).
Proof. reflexivity. Qed.

(** C9, as stated, fails: with 1000 frames left (the interpreter allows 1000
    in all by default) and a mapping as table, the document nested 1000
    sequences deep makes the matcher raise [RecursionError] instead of
    returning a sequence. *)
Lemma find_deprecated_features_deep_raises :
  depth (nest 1000) = 1001%nat /\
  find_deprecated_features_within 1000 (VDict tbl_c) (nest 1000) "" =
    Raise RecursionError.
Proof.
  split; [apply depth_nest|].
  apply within_deep. rewrite depth_nest. lia.
Qed.

(** C9, amended: with a mapping as table the matcher returns a sequence
    exactly on the documents whose nesting fits in the frames left, and
    raises [RecursionError] on the deeper ones.  When it returns, the
    sequence is empty if no key of the document is in the table, a scalar
    yields the empty sequence, and the findings come in depth-first
    pre-order: the finding of a mapping key, then the findings from within
    its value, then those of the entries that follow; the findings of a
    sequence element before those of the elements after it. *)
Theorem find_deprecated_features_within_limit tbl :
  (forall limit data p,
      find_deprecated_features_within limit (VDict tbl) data p =
      if (depth data <=? limit)%nat
      then find_deprecated_features (VDict tbl) data p
      else Raise RecursionError)
  /\ (forall data p,
         exists found,
           find_deprecated_features (VDict tbl) data p = Ok found /\
           ((forall o, In o (occurrences data) -> assoc (snd o) tbl = None) ->
            found = []))
  /\ (forall limit data p,
         is_container data = false ->
         find_deprecated_features_within (S limit) (VDict tbl) data p = Ok [])
  /\ (forall limit k v rest p,
         (depth (VDict ((k, v) :: rest)) <= S limit)%nat ->
         exists own sub others,
           check_key (VDict tbl) k (key_path p k) = Ok own /\
           find_deprecated_features_within limit (VDict tbl) v (key_path p k)
             = Ok sub /\
           find_deprecated_features_within (S limit) (VDict tbl) (VDict rest) p
             = Ok others /\
           find_deprecated_features_within (S limit) (VDict tbl)
             (VDict ((k, v) :: rest)) p = Ok (own ++ sub ++ others))
  /\ (forall limit x rest p i,
         (depth (VList (x :: rest)) <= S limit)%nat ->
         exists sub others,
           find_deprecated_features_within limit (VDict tbl) x (index_path p i)
             = Ok sub /\
           elems_over (find_deprecated_features_within limit (VDict tbl)) p
             rest (S i) [] = Ok others /\
           elems_over (find_deprecated_features_within limit (VDict tbl)) p
             (x :: rest) i [] = Ok (sub ++ others))
  /\ (forall limit l p,
         find_deprecated_features_within (S limit) (VDict tbl) (VList l) p =
         elems_over (find_deprecated_features_within limit (VDict tbl)) p
           l 0 []).
Proof.
  split.
  { intros limit data p. rewrite within_mapping, find_spec. reflexivity. }
  split.
  { intros data p. eexists. split; [apply find_spec|].
    apply flat_map_hit_none. }
  split.
  { intros limit data p E. destruct data; try reflexivity; discriminate E. }
  split.
  { intros limit k v rest p H.
    assert (Hv : (depth v <= limit)%nat)
      by (apply (depth_child_dict (d := (k, v) :: rest) (k, v) H);
          left; reflexivity).
    assert (Hr : (depth (VDict rest) <= S limit)%nat)
      by (simpl in *; lia).
    do 3 eexists.
    split; [apply check_key_hit|].
    split; [rewrite within_enough by exact Hv; apply find_spec|].
    split; [rewrite within_enough by exact Hr; apply find_spec|].
    rewrite within_enough by exact H.
    rewrite find_spec. simpl. rewrite flat_map_app, flat_map_hit_under.
    reflexivity. }
  split; [|reflexivity].
  intros limit x rest p i H.
  assert (Hx : (depth x <= limit)%nat)
    by (apply (depth_child_list (l := x :: rest) x H); left; reflexivity).
  assert (E : forall l j acc,
             (forall v, In v l -> (depth v <= limit)%nat) ->
             elems_over (find_deprecated_features_within limit (VDict tbl)) p
               l j acc =
             Ok (acc ++ flat_map (hit tbl p) (occurrences_elems l j))).
  { intros l j acc Hl.
    rewrite elems_over_ext
      with (rec' := find_deprecated_features (VDict tbl))
      by (intros v q Hin; apply within_enough, Hl, Hin).
    rewrite <- find_elems_over. apply find_elems_spec. }
  assert (Hrest : forall v, In v rest -> (depth v <= limit)%nat)
    by (intros v Hin; apply (depth_child_list (l := x :: rest) v H);
        right; exact Hin).
  do 2 eexists.
  split; [rewrite within_enough by exact Hx; apply find_spec|].
  split; [apply E, Hrest|].
  rewrite E by (intros v [<-|Hin]; auto).
  simpl. rewrite flat_map_app, flat_map_hit_under. reflexivity.
Qed.

(** ** The claims about the loader and the exit status, revisited *)

(** C6, as stated, fails in both directions of its "exactly when".  A file
    that holds the document [null] is there, its type is supported and its
    content parses, and the loader returns [None], the value it returns on
    failure.  A file that is there and cannot be opened makes the loader
    fail although none of the three conditions holds: the file is not
    absent, the type is supported, and no content was parsed. *)
Lemma load_config_data_none_is_ambiguous :
  path_exists (disk "null" doc_a1) "config.json" = true /\
  parser_for sample_json sample_yaml "json" = Some sample_json /\
  sample_json "null" = Ok VNone /\
  load_config_data sample_json sample_yaml (disk "null" doc_a1)
    "config.json" "json" = ([Open "config.json"], Return VNone) /\
  load_config_data sample_json sample_yaml (disk "{" doc_a1)
    "config.json" "json" =
    ([Open "config.json";
      Log ERROR (ErrorLoadingConfig
                   (LoadError "Expecting property name enclosed in double quotes"))],
     Return VNone) /\
  path_exists
    (listing [("config.json", NoAccess (LoadError "Permission denied"))])
    "config.json" = true /\
  load_config_data sample_json sample_yaml
    (listing [("config.json", NoAccess (LoadError "Permission denied"))])
    "config.json" "json" =
    ([Open "config.json";
      Log ERROR (ErrorLoadingConfig (LoadError "Permission denied"))],
     Return VNone).
Proof. repeat split; reflexivity. Qed.

(** C6, amended: the configuration loader never raises.  It logs one error
    and returns [None] exactly when the file is absent, or the file is there
    and cannot be opened, or the declared format is neither yaml nor json,
    or reading the file or parsing it with the parser of the declared format
    raises; in every other case it returns the parsed tree, logs nothing and
    has no effect beyond opening and reading the file. *)
Theorem load_config_data_failures json yaml fs file type :
  match fs file with
  | None =>
      load_config_data json yaml fs file type =
        ([Log ERROR (ConfigNotFound file)], Return VNone)
  | Some f =>
      match open f with
      | Raise e =>
          load_config_data json yaml fs file type =
            ([Open file; Log ERROR (ErrorLoadingConfig e)], Return VNone)
      | Ok _ =>
          match parser_for json yaml type with
          | None =>
              load_config_data json yaml fs file type =
                ([Open file; Log ERROR (UnsupportedType type)], Return VNone)
          | Some parse =>
              match (let* s := read f in parse s) with
              | Ok tree =>
                  load_config_data json yaml fs file type =
                    ([Open file], Return tree)
              | Raise e =>
                  load_config_data json yaml fs file type =
                    ([Open file; Log ERROR (ErrorLoadingConfig e)],
                     Return VNone)
              end
          end
      end
  end
  /\ (parser_for json yaml type = None <-> type <> "yaml" /\ type <> "json").
Proof.
  split.
  - unfold load_config_data, parser_for, yaml_safe_load, json_load.
    destruct (fs file) as [[e|e|s]|]; simpl; try reflexivity.
    + destruct (String.eqb type "yaml"); [reflexivity|].
      destruct (String.eqb type "json"); reflexivity.
    + destruct (String.eqb type "yaml"); [destruct (yaml s); reflexivity|].
      destruct (String.eqb type "json"); [destruct (json s)|]; reflexivity.
  - unfold parser_for.
    destruct (String.eqb type "yaml") eqn:Y;
      [|destruct (String.eqb type "json") eqn:J].
    + apply String.eqb_eq in Y. split; [discriminate|].
      intros [H _]. contradiction.
    + apply String.eqb_eq in J. split; [discriminate|].
      intros [_ H]. contradiction.
    + apply String.eqb_neq in Y. apply String.eqb_neq in J. split; auto.
Qed.


Lemma scan_within_raise limit table data e :
  scan_within limit table data = Raise e ->
  (e = TypeError /\ is_mapping table = false) \/
  (e = RecursionError /\ (limit < depth data)%nat).
Proof.
  unfold scan_within. intros H.
  destruct (Nat.le_gt_cases (depth data) limit) as [Le|Gt].
  - rewrite within_enough in H by exact Le.
    apply find_raise_is_TypeError in H. left. exact H.
  - apply within_raise in H. destruct H as [T| ->]; [left; exact T|].
    right. auto.
Qed.



(** ** Further properties under the recursion limit and from the command
    line *)

(** X6: on a document whose mapping keys are strings, two exceptions can
    leave the matcher: [TypeError], only when the table is not a mapping,
    and [RecursionError], only when the document is nested deeper than the
    frames left.  A [KeyError] never leaves it: [table[key]] is read only
    after [key in table] has answered yes. *)
Theorem matcher_exceptions limit table data p e :
  find_deprecated_features_within limit table data p = Raise e ->
  (e = TypeError /\ is_mapping table = false) \/
  (e = RecursionError /\ (limit < depth data)%nat).
Proof.
  intros H. destruct (Nat.le_gt_cases (depth data) limit) as [Le|Gt].
  - rewrite within_enough in H by exact Le.
    apply find_raise_is_TypeError in H. left. exact H.
  - apply within_raise in H. destruct H as [T| ->]; [left; exact T|].
    right. auto.
Qed.

Lemma matcher_exceptions_witness :
  (RecursionError = TypeError /\ is_mapping (VDict tbl_c) = false) \/
  (RecursionError = RecursionError /\ (3 < depth ex_tree)%nat).
Proof.
  exact (@matcher_exceptions 3 (VDict tbl_c) ex_tree "" RecursionError
           eq_refl).
Defined.

(** X12: how the process ends.  A command line that the argument parser
    rejects ends it with the parser's status.  On an accepted command line
    and a configuration whose mapping keys are strings, [main] ends with
    [sys.exit(0)], [sys.exit(1)] or [sys.exit(2)], or an uncaught
    [TypeError] or [RecursionError] leaves it; it calls [sys.exit(1)]
    exactly when an input file is missing. *)
Theorem main_cli_outcomes json yaml fs limit parse_args argv :
  match parse_args argv with
  | inr code =>
      result_of (main_cli json yaml fs (scan_within limit) parse_args argv) =
        Exited code
  | inl args =>
      (result_of (main_cli json yaml fs (scan_within limit) parse_args argv)
         = Exited 1 <->
       path_exists fs (arg_config_file args) = false \/
       path_exists fs (arg_deprecated_features_file args) = false)
      /\ In (result_of (main_cli json yaml fs (scan_within limit)
                          parse_args argv))
           [Exited 0; Exited 1; Exited 2;
            Raised TypeError; Raised RecursionError]
  end.
Proof.
  unfold main_cli. destruct (parse_args argv) as [args|code]; [|reflexivity].
  destruct (main_over_cases json yaml fs (scan_within limit) args)
    as [[Miss [msg M]]
       |[E1 [E2 [t1 [table [t2 [data [_ [_ [_ [_ [_ [_ [_ M]]]]]]]]]]]]]].
  - rewrite M. simpl. split; [split; auto|]. auto.
  - set (self := Deprecator (arg_config_file args)
                   (lower (arg_config_type args))
                   (arg_deprecated_features_file args) table data) in *.
    assert (Absurd : path_exists fs (arg_config_file args) = false \/
                     path_exists fs (arg_deprecated_features_file args) = false
                     -> False)
      by (rewrite E1, E2; intros [H|H]; discriminate H).
    destruct (run_over_cases (scan_within limit) self)
      as [[_ R]|[[_ [_ [found [_ R]]]]|[_ [_ [e [F R]]]]]];
      rewrite (M _ _ R); simpl.
    + split; [split; [discriminate | intros H; destruct (Absurd H)]|]. auto.
    + destruct found; simpl;
        (split; [split; [discriminate | intros H; destruct (Absurd H)]|]);
        auto.
    + split; [split; [discriminate | intros H; destruct (Absurd H)]|].
      apply scan_within_raise in F.
      destruct F as [[-> _]|[-> _]]; auto 6.
Qed.

(** X13: on an accepted command line, an exit with status 2 means that both
    loads succeeded without any error logged, that the matcher was called,
    and that the header of the findings was logged. *)
Theorem main_cli_exit_two json yaml fs limit parse_args argv args :
  parse_args argv = inl args ->
  result_of (main_cli json yaml fs (scan_within limit) parse_args argv) =
    Exited 2 ->
  matcher_invoked
    (main_cli json yaml fs (scan_within limit) parse_args argv) = true /\
  existsb is_error
    (trace (main_cli json yaml fs (scan_within limit) parse_args argv)) = false
  /\ In (Log WARNING FoundHeader)
       (trace (main_cli json yaml fs (scan_within limit) parse_args argv)).
Proof.
  intros A. unfold main_cli. rewrite A.
  destruct (main_over_cases json yaml fs (scan_within limit) args)
    as [[Miss [msg M]]
       |[E1 [E2 [t1 [table [t2 [data [_ [_ [_ [N1 [N2 [_ [_ M]]]]]]]]]]]]]].
  - rewrite M. discriminate.
  - set (self := Deprecator (arg_config_file args)
                   (lower (arg_config_type args))
                   (arg_deprecated_features_file args) table data) in *.
    destruct (run_over_cases (scan_within limit) self)
      as [[_ R]|[[Tc [Tt [found [_ R]]]]|[_ [_ [e [_ R]]]]]];
      rewrite (M _ _ R); simpl; try discriminate.
    destruct found as [|f r]; simpl; [discriminate|]. intros _.
    unfold matcher_invoked, trace. simpl fst.
    rewrite !existsb_app. simpl.
    rewrite (@no_error_of_truthy _ _ N1 Tt), (@no_error_of_truthy _ _ N2 Tc).
    rewrite report_lines_no_error, !orb_true_r. simpl.
    split; [reflexivity|]. split; [reflexivity|].
    apply in_or_app. right. apply in_or_app. right. simpl. auto.
Qed.

Lemma main_cli_exit_two_witness :
  matcher_invoked
    (main_cli sample_json sample_yaml (disk doc_nested doc_c_gone)
       (scan_within 1000) sample_parse_args argv_json) = true /\
  existsb is_error
    (trace (main_cli sample_json sample_yaml (disk doc_nested doc_c_gone)
              (scan_within 1000) sample_parse_args argv_json)) = false /\
  In (Log WARNING FoundHeader)
    (trace (main_cli sample_json sample_yaml (disk doc_nested doc_c_gone)
              (scan_within 1000) sample_parse_args argv_json)).
Proof.
  exact (@main_cli_exit_two sample_json sample_yaml
           (disk doc_nested doc_c_gone) 1000 sample_parse_args argv_json
           args_json eq_refl eq_refl).
Defined.



(** [main] is [main_over] with the walk that no limit cuts off, and within
    the limit the two scans agree. *)
Lemma main_is_main_over json yaml fs args :
  main json yaml fs args =
  main_over json yaml fs (fun table data => find_deprecated_features table data "")
    args.
Proof. reflexivity. Qed.

Lemma scan_within_enough limit table data :
  (depth data <= limit)%nat ->
  scan_within limit table data = find_deprecated_features table data "".
Proof. intros Le. apply within_enough, Le. Qed.
